(** * Emotion pipeline: a shallow embedding of the TypeScript sources

    The development follows the feature pipeline of the application
    (sample buffer, [extractFeatures], [normalizeFeatures], label selection
    in [classify]) and the lookup utilities of the music and chat side
    ([getRecommendedGenre], [getEmotionMusicDescription], the [emotionToTone]
    lookup of [sendMessageToLLM], and the fallback of [searchYouTubeVideos]).

    Conventions of the embedding:
    - a JavaScript [number] is an exact rational, or one of the three special
      values [Infinity], [-Infinity], [NaN].  Rounding, overflow and the sign
      of zero are not modelled; a zero divisor is read as [+0];
    - a [throw] is the [Thrown] branch of [outcome]; a rejected promise of an
      [async] function is the same branch;
    - an object used as a dictionary is a [gmap] from property names, or an
      association list where the order of the keys is observed; a read
      [table[key]] on an object literal with an arbitrary string key also
      sees what the literal inherits from [Object.prototype]. *)

From Stdlib Require Import QArith Qcanon Lqa Ascii.
From stdpp Require Import base numbers option list strings gmap fin_maps.

Local Open Scope Z_scope.

(** * The program *)

(** ** JavaScript numbers *)

Module JsNumber.

Inductive number : Type :=
| Fin (q : Qc)
| Infinity
| NegInfinity
| NaN.

#[global] Instance number_eq_dec : EqDecision number.
Proof. solve_decision. Defined.

#[global] Instance number_inhabited : Inhabited number := populate NaN.

Definition of_Z (z : Z) : number := Fin (Qc_of_Z z).
Definition of_nat (n : nat) : number := of_Z (Z.of_nat n).

Definition neg (x : number) : number :=
  match x with
  | Fin q => Fin (- q)%Qc
  | Infinity => NegInfinity
  | NegInfinity => Infinity
  | NaN => NaN
  end.

(** [x + y] *)
Definition add (x y : number) : number :=
  match x, y with
  | NaN, _ | _, NaN => NaN
  | Fin a, Fin b => Fin (a + b)%Qc
  | Infinity, NegInfinity | NegInfinity, Infinity => NaN
  | Infinity, _ | _, Infinity => Infinity
  | NegInfinity, _ | _, NegInfinity => NegInfinity
  end.

(** [x - y] *)
Definition sub (x y : number) : number := add x (neg y).

(** [x / y]; a finite zero divisor counts as [+0]. *)
Definition div (x y : number) : number :=
  match x, y with
  | NaN, _ | _, NaN => NaN
  | Fin a, Fin b =>
      if decide (b = 0%Qc) then
        if decide (a = 0%Qc) then NaN
        else if decide (0 < a)%Qc then Infinity else NegInfinity
      else Fin (a / b)%Qc
  | Fin _, _ => Fin 0%Qc
  | Infinity, Fin b => if decide (b < 0)%Qc then NegInfinity else Infinity
  | NegInfinity, Fin b => if decide (b < 0)%Qc then Infinity else NegInfinity
  | _, _ => NaN
  end.

(** [x < y]: false as soon as one side is [NaN]. *)
Definition ltb (x y : number) : bool :=
  match x, y with
  | NaN, _ | _, NaN => false
  | Fin a, Fin b => bool_decide (a < b)%Qc
  | NegInfinity, NegInfinity => false
  | NegInfinity, _ => true
  | Fin _, Infinity => true
  | _, _ => false
  end.

(** [x > y] *)
Definition gtb (x y : number) : bool := ltb y x.

(** [x <= y] *)
Definition leb (x y : number) : bool :=
  match x, y with
  | NaN, _ | _, NaN => false
  | Fin a, Fin b => bool_decide (a <= b)%Qc
  | NegInfinity, _ | _, Infinity => true
  | _, _ => false
  end.

(** [Math.max(x, y)] and [Math.min(x, y)]: [NaN] is contagious. *)
Definition max (x y : number) : number :=
  match x, y with
  | NaN, _ | _, NaN => NaN
  | _, _ => if ltb x y then y else x
  end.

Definition min (x y : number) : number :=
  match x, y with
  | NaN, _ | _, NaN => NaN
  | _, _ => if ltb y x then y else x
  end.

End JsNumber.

Import JsNumber.

Declare Scope number_scope.
Delimit Scope number_scope with num.
Bind Scope number_scope with number.
Infix "+" := JsNumber.add : number_scope.
Infix "-" := JsNumber.sub : number_scope.
Infix "/" := JsNumber.div : number_scope.

(** ** Exceptions *)

Inductive exn : Type :=
| Error (message : string)
| ExternalError (message : string).

Inductive outcome (A : Type) : Type :=
| Returned (a : A)
| Thrown (e : exn).
Arguments Returned {A} a.
Arguments Thrown {A} e.

#[global] Instance exn_eq_dec : EqDecision exn.
Proof. solve_decision. Defined.

#[global] Instance outcome_eq_dec `{EqDecision A} : EqDecision (outcome A).
Proof. solve_decision. Defined.

#[global] Instance outcome_ret : MRet outcome := fun A a => Returned a.
#[global] Instance outcome_bind : MBind outcome := fun A B k m =>
  match m with
  | Returned a => k a
  | Thrown e => Thrown e
  end.

(** [try { body } catch (error) { handler }] *)
Definition try_catch {A} (body : outcome A) (handler : exn -> outcome A)
  : outcome A :=
  match body with
  | Returned a => Returned a
  | Thrown e => handler e
  end.

Definition throws {A} (m : outcome A) : Prop := exists e, m = Thrown e.
Definition returns {A} (m : outcome A) : Prop := exists a, m = Returned a.

(** ** The signal processor ([eegProcessor]) *)

Record EegChannelData : Type := {
  eeg1 : number; eeg2 : number; eeg3 : number; eeg4 : number;
  eeg5 : number; eeg6 : number; eeg7 : number; eeg8 : number;
  timestamp : number
}.

(** [obj[key]] on a plain numeric record: [undefined] turns into [NaN] as soon
    as it meets arithmetic, which is the only use made of it here. *)
Definition get (key : string) (obj : gmap string number) : number :=
  default NaN (obj !! key).

(** [obj.key += x] *)
Definition add_assign (key : string) (x : number) (obj : gmap string number)
  : gmap string number :=
  <[key := (get key obj + x)%num]> obj.

Definition zero_features : gmap string number :=
  list_to_map
    [("eeg1", of_Z 0); ("eeg2", of_Z 0); ("eeg3", of_Z 0); ("eeg4", of_Z 0);
     ("eeg5", of_Z 0); ("eeg6", of_Z 0); ("eeg7", of_Z 0); ("eeg8", of_Z 0)]%string.

(** The body of the [forEach] callback of [extractFeatures]. *)
Definition accumulate (len : number) (features : gmap string number)
    (sample : EegChannelData) : gmap string number :=
  let features := add_assign "eeg1" (eeg1 sample / len)%num features in
  let features := add_assign "eeg2" (eeg2 sample / len)%num features in
  let features := add_assign "eeg3" (eeg3 sample / len)%num features in
  let features := add_assign "eeg4" (eeg4 sample / len)%num features in
  let features := add_assign "eeg5" (eeg5 sample / len)%num features in
  let features := add_assign "eeg6" (eeg6 sample / len)%num features in
  let features := add_assign "eeg7" (eeg7 sample / len)%num features in
  let features := add_assign "eeg8" (eeg8 sample / len)%num features in
  features.

Definition extractFeatures (eegData : list EegChannelData)
  : outcome (gmap string number) :=
  if bool_decide (length eegData = 0%nat) then
    Thrown (Error "No EEG data provided for feature extraction")
  else
    Returned (foldl (accumulate (of_nat (length eegData))) zero_features eegData).

(** [Math.max(0, Math.min(1, v))] *)
Definition clamp01 (v : number) : number :=
  JsNumber.max (of_Z 0) (JsNumber.min (of_Z 1) v).

(** [normalizeFeatures(features, min, max)]: every own key of the copy is
    rescaled and clamped; there is no [throw] in the function. *)
Definition normalizeFeatures (features : gmap string number)
    (min max : number) : outcome (gmap string number) :=
  Returned ((fun v => clamp01 ((v - min) / (max - min))%num) <$> features).

Definition default_min : number := of_Z (-50).
Definition default_max : number := of_Z 50.

(** *** Notions for the statements *)

(** The channel names with their projections, in the order of the object
    literal of [extractFeatures]. *)
Definition channels : list (string * (EegChannelData -> number)) :=
  [("eeg1", eeg1); ("eeg2", eeg2); ("eeg3", eeg3); ("eeg4", eeg4);
   ("eeg5", eeg5); ("eeg6", eeg6); ("eeg7", eeg7); ("eeg8", eeg8)]%string.

Definition channel_keys : list string := channels.*1.

(** Arithmetic mean of a list of numbers: the sum divided by the count. *)
Definition sum (xs : list number) : number := foldl JsNumber.add (of_Z 0) xs.
Definition mean (xs : list number) : number := (sum xs / of_nat (length xs))%num.

(** An object with the eight channel keys. *)
Definition obj8 (a1 a2 a3 a4 a5 a6 a7 a8 : number) : gmap string number :=
  list_to_map
    [("eeg1", a1); ("eeg2", a2); ("eeg3", a3); ("eeg4", a4);
     ("eeg5", a5); ("eeg6", a6); ("eeg7", a7); ("eeg8", a8)]%string.

(** The clamp of a rational into the unit interval. *)
Definition clampQ (x : Qc) : Qc :=
  if decide (x < 0)%Qc then 0%Qc else if decide (1 < x)%Qc then 1%Qc else x.

(** ** The sample buffer of [EmotionMonitor] *)

(** [arr.slice(-n)]: the last [n] elements, or all of them. *)
Definition slice_last {A} (n : nat) (arr : list A) : list A :=
  drop (length arr - n) arr.

(** One tick of the acquisition interval:
    [dataBuffer.current = [...dataBuffer.current, newData].slice(-100)]. *)
Definition append_sample (buffer : list EegChannelData) (newData : EegChannelData)
  : list EegChannelData :=
  slice_last 100 (buffer ++ [newData]).

(** The buffer after the ticks that delivered [samples], oldest first, starting
    from the empty [useRef([])]. *)
Definition buffer_after (samples : list EegChannelData) : list EegChannelData :=
  foldl append_sample [] samples.

(** ** The classifier hook ([useEmotionClassifier]) *)

Definition EMOTIONS : list string :=
  ["happy"; "sad"; "angry"; "calm"; "fear"; "surprise"; "neutral"]%string.

(** The callback of [EMOTIONS.forEach], on the pair
    [(highestScore, detectedEmotion)]: the pair is replaced when
    [result[emotion] > highestScore].  A missing score is [undefined], which
    compares false. *)
Definition keep_highest (result : gmap string number)
    (state : number * string) (emotion : string) : number * string :=
  match result !! emotion with
  | Some score => if JsNumber.gtb score state.1 then (score, emotion) else state
  | None => state
  end.

(** "Find the emotion with the highest score", as written in [classify] and,
    letter for letter, in [classifyEmotion]. *)
Definition detectEmotion (result : gmap string number) : string :=
  (foldl (keep_highest result) (of_Z 0, "neutral"%string) EMOTIONS).2.

(** The network of [brain.js] is outside the repository: only its [run]
    method is used, and it may throw. *)
Record NeuralNetwork : Type := {
  run : gmap string number -> outcome (gmap string number)
}.

(** The state of the hook that [classify] closes over. *)
Record hook_state : Type := {
  classifier : option NeuralNetwork;
  isReady : bool
}.

(** [classify(eegData)]; the promise it returns is the [outcome]. *)
Definition classify (st : hook_state) (eegData : list EegChannelData)
  : outcome string :=
  match classifier st, isReady st with
  | Some net, true =>
      try_catch
        (features ← extractFeatures eegData;
         normalizedFeatures ← normalizeFeatures features default_min default_max;
         result ← run net normalizedFeatures;
         mret (detectEmotion result))
        (fun error => mret "neutral"%string)
  | _, _ => mret "neutral"%string
  end.

(** [classifyEmotion()] of [EmotionMonitor]: the label handed to
    [onEmotionDetected], if any.  The averages are rescaled by
    [(v + 50) / 100] without a clamp. *)
Definition classifyEmotion (emotionClassifier : option NeuralNetwork)
    (dataBuffer : list EegChannelData) : option string :=
  match emotionClassifier with
  | None => None
  | Some net =>
      if bool_decide (length dataBuffer = 0%nat) then None
      else
        let averageData :=
          foldl (accumulate (of_nat (length dataBuffer))) zero_features dataBuffer in
        let averageData := (fun v => (v + of_Z 50) / of_Z 100)%num <$> averageData in
        match run net averageData with
        | Returned result => Some (detectEmotion result)
        | Thrown _ => None
        end
  end.

(** *** Notions for the statements *)

(** The selection rule in the words of the specification: [label] is the
    first label of the enumeration whose score no other label exceeds. *)
Definition first_highest (score : string -> Qc) (labels : list string)
    (label : string) : Prop :=
  exists i : nat,
    labels !! i = Some label
    /\ (forall e, e ∈ labels -> (score e <= score label)%Qc)
    /\ (forall j e, (j < i)%nat -> labels !! j = Some e -> (score e < score label)%Qc).

(** [result] carries the finite score [score e] for every label [e]. *)
Definition scores (result : gmap string number) (score : string -> Qc)
    (labels : list string) : Prop :=
  forall e, e ∈ labels -> result !! e = Some (Fin (score e)).

(** ** Property reads on object literals *)

(** The values a property read on the lookup tables can produce. *)
Inductive value : Type :=
| Undefined
| Str (s : string)
| Function (name : string)
| Object (name : string).

#[global] Instance value_eq_dec : EqDecision value.
Proof. solve_decision. Defined.

(** What every object literal inherits from [Object.prototype]: built-in
    methods, and the accessor [__proto__] that reads as the prototype. *)
Definition Object_prototype : gmap string value :=
  list_to_map
    [("constructor", Function "Object");
     ("hasOwnProperty", Function "hasOwnProperty");
     ("isPrototypeOf", Function "isPrototypeOf");
     ("propertyIsEnumerable", Function "propertyIsEnumerable");
     ("toLocaleString", Function "toLocaleString");
     ("toString", Function "toString");
     ("valueOf", Function "valueOf");
     ("__defineGetter__", Function "__defineGetter__");
     ("__defineSetter__", Function "__defineSetter__");
     ("__lookupGetter__", Function "__lookupGetter__");
     ("__lookupSetter__", Function "__lookupSetter__");
     ("__proto__", Object "Object.prototype")]%string.

(** [obj[key]] for an object literal [obj] with the own string properties
    [own]: own properties first, then the prototype. *)
Definition get_property (own : gmap string string) (key : string) : value :=
  match own !! key with
  | Some s => Str s
  | None => default Undefined (Object_prototype !! key)
  end.

Definition truthy (v : value) : bool :=
  match v with
  | Undefined => false
  | Str s => negb (String.eqb s "")
  | Function _ | Object _ => true
  end.

(** [v || d] *)
Definition or_else (v d : value) : value := if truthy v then v else d.

(** ** The music and chat lookups

    In the three selectors the guard [!emotion] holds for [null] and for the
    empty string. *)

Definition emotionToGenre : gmap string string :=
  list_to_map
    [("happy", "upbeat happy music");
     ("sad", "melancholic piano music");
     ("angry", "calming ambient music");
     ("calm", "relaxing meditation music");
     ("fear", "soothing acoustic music");
     ("surprise", "inspirational orchestral music");
     ("neutral", "lofi study beats")]%string.

Definition getRecommendedGenre (emotion : option string) : value :=
  match emotion with
  | None | Some EmptyString => Str "lofi study beats"
  | Some e => or_else (get_property emotionToGenre e) (Str "lofi study beats")
  end.

Definition descriptions : gmap string string :=
  list_to_map
    [("happy", "Uplifting tunes to boost your happiness");
     ("sad", "Comforting melodies for reflection");
     ("angry", "Calming sounds to ease tension");
     ("calm", "Peaceful ambient music to maintain tranquility");
     ("fear", "Soothing melodies to provide reassurance");
     ("surprise", "Inspirational music for this moment of wonder");
     ("neutral", "Pleasant background music for focus")]%string.

Definition getEmotionMusicDescription (emotion : option string) : value :=
  match emotion with
  | None | Some EmptyString => Str "Music to match your mood"
  | Some e => or_else (get_property descriptions e) (Str "Music to match your mood")
  end.

Definition emotionToTone : gmap string string :=
  list_to_map
    [("happy", "enthusiastic and upbeat");
     ("sad", "empathetic and comforting");
     ("angry", "calm and de-escalating");
     ("calm", "peaceful and measured");
     ("fear", "reassuring and supportive");
     ("surprise", "engaged and attentive");
     ("neutral", "balanced and informative")]%string.

(** The [tone] constant of [sendMessageToLLM]:
    [currentEmotion ? emotionToTone[currentEmotion] || 'neutral and helpful'
                    : 'neutral and helpful']. *)
Definition tone (currentEmotion : option string) : value :=
  match currentEmotion with
  | None | Some EmptyString => Str "neutral and helpful"
  | Some e => or_else (get_property emotionToTone e) (Str "neutral and helpful")
  end.

(** *** Notions for the statements *)

(** A selector answers with a non-empty string. *)
Definition nonempty_string (v : value) : Prop :=
  exists s, v = Str s /\ s <> ""%string.

(** [key] names a property that object literals inherit. *)
Definition inherited (key : string) : Prop := is_Some (Object_prototype !! key).

(** ** Strings

    Strings are ASCII strings; [toLowerCase] folds the letters [A]-[Z] and
    leaves every other character alone. *)

Definition toLowerCase_ascii (c : ascii) : ascii :=
  let n := N_of_ascii c in
  if (65 <=? n)%N && (n <=? 90)%N then ascii_of_N (n + 32) else c.

Fixpoint toLowerCase (s : string) : string :=
  match s with
  | EmptyString => EmptyString
  | String c s' => String (toLowerCase_ascii c) (toLowerCase s')
  end.

(** [s.startsWith(search)] *)
Fixpoint starts_with (search s : string) : bool :=
  match search, s with
  | EmptyString, _ => true
  | String a search', String b s' => bool_decide (a = b) && starts_with search' s'
  | String _ _, EmptyString => false
  end.

(** [s.includes(search)] *)
Fixpoint includes (s search : string) : bool :=
  starts_with search s
  || match s with
     | EmptyString => false
     | String _ s' => includes s' search
     end.

(** [search] occurs in [s]. *)
Definition substring_of (search s : string) : Prop :=
  exists pre post : string, s = pre +:+ search +:+ post.

(** ** The track source ([youtubeService]) *)

Record YouTubeTrack : Type := {
  id : string;
  title : string;
  thumbnail : option string
}.

#[global] Instance YouTubeTrack_eq_dec : EqDecision YouTubeTrack.
Proof. solve_decision. Defined.

Definition track (id title : string) : YouTubeTrack :=
  {| id := id; title := title; thumbnail := None |}.

(** The fallback table, entries in the order of the object literal (the order
    in which [Object.keys] lists them). *)
Definition fallbackTracks : list (string * list YouTubeTrack) :=
  [("upbeat happy music",
     [track "dQw4w9WgXcQ" "Happy Vibes";
      track "y6120QOlsfU" "Uplifting Rhythm";
      track "L_jWHffIx5E" "Sunny Day"]);
   ("melancholic piano music",
     [track "rR94NDIfGmA" "Rainy Day Piano";
      track "4N3N1MlvVc4" "Melancholy Sonata";
      track "wAPCSnAhhC8" "Nostalgic Memories"]);
   ("calming ambient music",
     [track "DWcJFNfaw9c" "Tranquil Waters";
      track "lTRiuFIWV54" "Forest Ambience";
      track "hHW1oY26kxQ" "Peaceful Horizon"]);
   ("relaxing meditation music",
     [track "5qap5aO4i9A" "Zen Garden";
      track "DfG6VKnjrVw" "Inner Peace";
      track "lFcSrYw-ARY" "Mindful Moments"]);
   ("soothing acoustic music",
     [track "jdYJf_ybyVo" "Gentle Guitar";
      track "HSOtku1j600" "Acoustic Dreams";
      track "KkOF8UiB7u8" "Campfire Melodies"]);
   ("inspirational orchestral music",
     [track "oN2Xs-MvxLw" "Epic Journey";
      track "FK30dkXOTck" "New Horizons";
      track "XYKUeZQbMF0" "Awakening"]);
   ("lofi study beats",
     [track "5qap5aO4i9A" "Chill Beats to Study To";
      track "bmVKaAV_7-A" "Lofi Cafe";
      track "DWcJFNfaw9c" "Late Night Study Session"])]%string.

(** [fallbackTracks[key]]; only own keys of the table are ever read. *)
Definition fallbackTracks_at (key : string) : list YouTubeTrack :=
  default [] (list_to_map (M := gmap string (list YouTubeTrack)) fallbackTracks !! key).

(** The test of the [for] loop in the [catch] block. *)
Definition key_matches (normalizedGenre key : string) : bool :=
  includes normalizedGenre key || includes key normalizedGenre.

(** The [catch] block of [searchYouTubeVideos]. *)
Definition fallback_search (genre : string) : list YouTubeTrack :=
  let normalizedGenre := toLowerCase genre in
  match list_find (fun key => key_matches normalizedGenre key = true)
          (fallbackTracks.*1) with
  | Some (_, key) => fallbackTracks_at key
  | None => fallbackTracks_at "lofi study beats"
  end.

(** [searchYouTubeVideos(genre)].  [remote genre] stands for the request
    [axios.get('/api/youtube-search', ...)] followed by the read of
    [response.data.tracks]: thrown on any failure, [None] when the field is
    missing. *)
Definition searchYouTubeVideos
    (remote : string -> outcome (option (list YouTubeTrack))) (genre : string)
  : outcome (list YouTubeTrack) :=
  try_catch
    (tracks ← remote genre; mret (default [] tracks))
    (fun error => mret (fallback_search genre)).

(** The match of the fallback in words: the key occurs in the folded query,
    or the folded query occurs in the key. *)
Definition matches (genre key : string) : Prop :=
  substring_of key (toLowerCase genre) \/ substring_of (toLowerCase genre) key.

(** ** Concrete inputs *)

(** The number 0.5. *)
Definition half : number := Fin (Q2Qc (1 # 2)).

(** A sample with integer readings. *)
Definition sample_of (a1 a2 a3 a4 a5 a6 a7 a8 : Z) : EegChannelData :=
  {| eeg1 := of_Z a1; eeg2 := of_Z a2; eeg3 := of_Z a3; eeg4 := of_Z a4;
     eeg5 := of_Z a5; eeg6 := of_Z a6; eeg7 := of_Z a7; eeg8 := of_Z a8;
     timestamp := of_Z 0 |}.

Definition two_samples : list EegChannelData :=
  [sample_of 10 20 30 40 (-10) (-20) (-30) (-40);
   sample_of 20 40 50 60 (-30) (-40) (-50) (-60)].

(** Three readings: above the default range, below it, and inside. *)
Definition finite_features : gmap string Qc :=
  list_to_map [("eeg1", Qc_of_Z 60); ("eeg2", Qc_of_Z (-70)); ("eeg3", Qc_of_Z 25)]%string.

(** A forward pass that puts every score at 0. *)
Definition zero_result : gmap string number :=
  list_to_map ((fun e => (e, Fin 0%Qc)) <$> EMOTIONS).

(** A forward pass with a tie at the top between ["happy"] and ["angry"]. *)
Definition happy_result : gmap string number :=
  list_to_map
    [("happy", Fin (Q2Qc (9 # 10))); ("sad", Fin (Q2Qc (1 # 10)));
     ("angry", Fin (Q2Qc (9 # 10))); ("calm", Fin (Q2Qc (2 # 10)));
     ("fear", Fin 0%Qc); ("surprise", Fin (Q2Qc (3 # 10)));
     ("neutral", Fin (Q2Qc (1 # 2)))]%string.

(** The finite scores read back from a result. *)
Definition score_of (result : gmap string number) (e : string) : Qc :=
  match result !! e with
  | Some (Fin q) => q
  | _ => 0%Qc
  end.

(** A network whose forward pass throws, and one that always answers with
    the same scores. *)
Definition failing_net : NeuralNetwork :=
  {| run := fun _ => Thrown (ExternalError "forward pass failed") |}.

Definition constant_net (result : gmap string number) : NeuralNetwork :=
  {| run := fun _ => Returned result |}.

(** The two fallback lists named by the specification. *)
Definition happy_tracks : list YouTubeTrack :=
  [track "dQw4w9WgXcQ" "Happy Vibes";
   track "y6120QOlsfU" "Uplifting Rhythm";
   track "L_jWHffIx5E" "Sunny Day"]%string.

Definition lofi_tracks : list YouTubeTrack :=
  [track "5qap5aO4i9A" "Chill Beats to Study To";
   track "bmVKaAV_7-A" "Lofi Cafe";
   track "DWcJFNfaw9c" "Late Night Study Session"]%string.

(** The remote search forced to fail. *)
Definition remote_down : string -> outcome (option (list YouTubeTrack)) :=
  fun _ => Thrown (ExternalError "Network Error").

(** * More of the program *)

From Stdlib Require Import Qround.

(** ** The signal generators ([eegProcessor]) *)

(** The eight values of [Math.random()] that one sample consumes, in the
    order in which the object literal evaluates them.  Each lies in [0, 1). *)
Record draws : Type := {
  draw1 : Qc; draw2 : Qc; draw3 : Qc; draw4 : Qc;
  draw5 : Qc; draw6 : Qc; draw7 : Qc; draw8 : Qc
}.

Definition draws_list (rnd : draws) : list Qc :=
  [draw1 rnd; draw2 rnd; draw3 rnd; draw4 rnd;
   draw5 rnd; draw6 rnd; draw7 rnd; draw8 rnd].

(** [Math.random() * 100 - 50] *)
Definition uniform_reading (r : Qc) : number := Fin (r * Qc_of_Z 100 - Qc_of_Z 50)%Qc.

(** [generateSimulatedEegData()]; [now] is the value of [Date.now()]. *)
Definition generateSimulatedEegData (rnd : draws) (now : number) : EegChannelData :=
  {| eeg1 := uniform_reading (draw1 rnd);
     eeg2 := uniform_reading (draw2 rnd);
     eeg3 := uniform_reading (draw3 rnd);
     eeg4 := uniform_reading (draw4 rnd);
     eeg5 := uniform_reading (draw5 rnd);
     eeg6 := uniform_reading (draw6 rnd);
     eeg7 := uniform_reading (draw7 rnd);
     eeg8 := uniform_reading (draw8 rnd);
     timestamp := now |}.

(** [randomize(base)]: [base + (Math.random() * 10 - 5)] *)
Definition randomize (base : Z) (r : Qc) : number :=
  Fin (Qc_of_Z base + (r * Qc_of_Z 10 - Qc_of_Z 5))%Qc.

(** One branch of the [switch]: [basePattern] overwritten on the eight
    channels. *)
Definition pattern (b1 b2 b3 b4 b5 b6 b7 b8 : Z) (rnd : draws) (now : number)
  : EegChannelData :=
  {| eeg1 := randomize b1 (draw1 rnd);
     eeg2 := randomize b2 (draw2 rnd);
     eeg3 := randomize b3 (draw3 rnd);
     eeg4 := randomize b4 (draw4 rnd);
     eeg5 := randomize b5 (draw5 rnd);
     eeg6 := randomize b6 (draw6 rnd);
     eeg7 := randomize b7 (draw7 rnd);
     eeg8 := randomize b8 (draw8 rnd);
     timestamp := now |}.

(** [generateEmotionPattern(emotion)] *)
Definition generateEmotionPattern (emotion : string) (rnd : draws) (now : number)
  : EegChannelData :=
  if String.eqb emotion "happy" then pattern 40 30 25 20 15 15 10 10 rnd now
  else if String.eqb emotion "sad" then pattern 15 20 20 25 35 40 30 25 rnd now
  else if String.eqb emotion "angry" then pattern 35 40 35 35 35 40 45 40 rnd now
  else if String.eqb emotion "calm" then pattern 15 15 20 20 15 15 15 15 rnd now
  else if String.eqb emotion "fear" then pattern 30 35 40 35 45 40 35 45 rnd now
  else if String.eqb emotion "surprise" then pattern 45 40 35 30 35 40 45 35 rnd now
  else pattern 25 25 25 25 25 25 25 25 rnd now.

(** *** Notions for the statements *)

(** The eight readings of a sample. *)
Definition readings (sample : EegChannelData) : list number :=
  [eeg1 sample; eeg2 sample; eeg3 sample; eeg4 sample;
   eeg5 sample; eeg6 sample; eeg7 sample; eeg8 sample].

(** A finite number between two rational bounds, as a test. *)
Definition between (low high : Qc) (x : number) : bool :=
  match x with
  | Fin q => bool_decide (low <= q)%Qc && bool_decide (q <= high)%Qc
  | _ => false
  end.

(** All eight readings of a sample pass the test. *)
Definition sample_between (low high : Qc) (sample : EegChannelData) : bool :=
  forallb (between low high) (readings sample).

(** A value of [Math.random()]. *)
Definition unit_draw (r : Qc) : Prop := (0 <= r)%Qc /\ (r < 1)%Qc.

Definition unit_draws (rnd : draws) : Prop := Forall unit_draw (draws_list rnd).

(** ** The display of [EmotionMonitor] *)

(** The state update [setEegData(prevData => [...prevData, newData].slice(-10))]. *)
Definition show_sample (prevData : list EegChannelData) (newData : EegChannelData)
  : list EegChannelData :=
  slice_last 10 (prevData ++ [newData]).

(** The displayed samples after the ticks that delivered [samples], starting
    from the empty [useState([])]. *)
Definition display_after (samples : list EegChannelData) : list EegChannelData :=
  foldl show_sample [] samples.

(** [x * y] *)
Definition mul (x y : number) : number :=
  match x, y with
  | NaN, _ | _, NaN => NaN
  | Fin a, Fin b => Fin (a * b)%Qc
  | Fin a, Infinity | Infinity, Fin a =>
      if decide (a = 0%Qc) then NaN
      else if decide (0 < a)%Qc then Infinity else NegInfinity
  | Fin a, NegInfinity | NegInfinity, Fin a =>
      if decide (a = 0%Qc) then NaN
      else if decide (0 < a)%Qc then NegInfinity else Infinity
  | Infinity, Infinity | NegInfinity, NegInfinity => Infinity
  | Infinity, NegInfinity | NegInfinity, Infinity => NegInfinity
  end.

(** The horizontal coordinate of the point drawn for the sample at index [i]
    of the [len] displayed ones: [i * (100 / (eegData.length - 1))]. *)
Definition point_x (i len : nat) : number :=
  mul (of_nat i) (of_Z 100 / (of_nat len - of_Z 1))%num.

(** A window of two samples inside the default range. *)
Definition inner_window : list EegChannelData :=
  [sample_of 10 20 30 40 (-10) (-20) (-30) (-40);
   sample_of 20 40 50 (-50) (-30) (-40) 0 1].

(** ** More on strings *)

(** The double-quote character. *)
Definition quote : ascii := ascii_of_N 34.

(** White space for [trim], within ASCII: tab, line feed, vertical tab, form
    feed, carriage return, space. *)
Definition is_space (c : ascii) : bool :=
  let n := N_of_ascii c in ((9 <=? n)%N && (n <=? 13)%N) || (n =? 32)%N.

(** The first [replace] of the clean-up: a double quote at the very start of
    the string is removed. *)
Definition strip_leading_quote (s : string) : string :=
  match s with
  | String c s' => if bool_decide (c = quote) then s' else s
  | EmptyString => s
  end.

(** The second [replace]: a double quote at the very end is removed. *)
Fixpoint strip_trailing_quote (s : string) : string :=
  match s with
  | EmptyString => EmptyString
  | String c EmptyString => if bool_decide (c = quote) then EmptyString else s
  | String c s' => String c (strip_trailing_quote s')
  end.

Fixpoint trimStart (s : string) : string :=
  match s with
  | String c s' => if is_space c then trimStart s' else s
  | EmptyString => s
  end.

Fixpoint trimEnd (s : string) : string :=
  match s with
  | EmptyString => EmptyString
  | String c s' =>
      match trimEnd s' with
      | EmptyString => if is_space c then EmptyString else String c EmptyString
      | t => String c t
      end
  end.

(** [s.trim()] *)
Definition trim (s : string) : string := trimEnd (trimStart s).

(** [s || d] on strings that may be missing. *)
Definition string_or (s : option string) (d : string) : string :=
  match s with
  | None | Some EmptyString => d
  | Some s => s
  end.

(** ** The chat service ([llmService]) *)

Inductive Role : Type := system | user | assistant.

#[global] Instance Role_eq_dec : EqDecision Role.
Proof. solve_decision. Defined.

Record Message : Type := {
  role : Role;
  content : string
}.

#[global] Instance Message_eq_dec : EqDecision Message.
Proof. solve_decision. Defined.

Record LLMResponse : Type := {
  text : string;
  error : option string
}.

(** What [axios.post] and the read of
    [response.data.choices[0]?.message?.content] come to: a reply whose
    content may be missing, or a failure (a rejected request, or a payload
    without [choices]) carrying [error.response?.data?.error?.message] and
    [error.message], either of which may be missing. *)
Inductive post_result : Type :=
| Replied (reply : option string)
| Failed (api_message message : option string).

(** A value inside a template literal.  The text of a built-in function
    depends on the engine and is taken from [functionSource]. *)
Definition template_text (functionSource : string -> string) (v : value) : string :=
  match v with
  | Undefined => "undefined"
  | Str s => s
  | Function name => functionSource name
  | Object _ => "[object Object]"
  end.

(** The system message that [sendMessageToLLM] puts in front. *)
Definition system_message (functionSource : string -> string)
    (currentEmotion : option string) : Message :=
  {| role := system;
     content := "You are a helpful assistant. The user is currently feeling "
                +:+ string_or currentEmotion "neutral"
                +:+ ". Please respond in a "
                +:+ template_text functionSource (tone currentEmotion)
                +:+ " tone. Be concise and helpful." |}.

(** [sendMessageToLLM(messages, currentEmotion, apiKey)]; [post] receives the
    messages of the request. *)
Definition sendMessageToLLM (functionSource : string -> string)
    (post : list Message -> post_result)
    (messages : list Message) (currentEmotion : option string) (apiKey : string)
  : LLMResponse :=
  if String.eqb apiKey "" then
    {| text := "API key is missing. Please set your NEXT_PUBLIC_OPENROUTER_API_KEY in .env.local";
       error := Some "API key missing" |}
  else
    match post (system_message functionSource currentEmotion :: messages) with
    | Replied reply =>
        {| text := string_or reply "I'm sorry, I couldn't generate a response.";
           error := None |}
    | Failed api_message message =>
        {| text := "Sorry, I encountered an error. Please try again later.";
           error := Some (string_or api_message (string_or message "Unknown error")) |}
    end.

Definition genreMap : gmap string string :=
  list_to_map
    [("happy", "upbeat happy music");
     ("sad", "melancholic piano music");
     ("angry", "calming ambient music");
     ("calm", "relaxing meditation music");
     ("fear", "soothing acoustic music");
     ("surprise", "inspirational orchestral music");
     ("neutral", "lofi study beats")]%string.

(** [emotionToGenre(emotion)], the fallback of the chat service. *)
Definition emotionToGenre_fallback (emotion : string) : value :=
  or_else (get_property genreMap emotion) (Str "lofi study beats").

(** The question that [getMusicRecommendation] sends. *)
Definition genre_question (emotion : string) : Message :=
  {| role := user;
     content := "I'm feeling " +:+ emotion
                +:+ ". What genre of music would be appropriate for this emotional state? Keep your answer to just the genre name, nothing else." |}.

(** The clean-up of the reply in [getMusicRecommendation]. *)
Definition clean_genre (s : string) : string :=
  trim (strip_trailing_quote (strip_leading_quote s)).

(** [getMusicRecommendation(emotion, apiKey)].  Nothing in its [try] block
    throws, [sendMessageToLLM] catching its own failures. *)
Definition getMusicRecommendation (functionSource : string -> string)
    (post : list Message -> post_result)
    (emotion : option string) (apiKey : string) : value :=
  match emotion with
  | None | Some EmptyString => Str "lofi study beats"
  | Some e =>
      let response :=
        sendMessageToLLM functionSource post [genre_question e] (Some "neutral"%string) apiKey in
      let genre := clean_genre (text response) in
      match genre with
      | EmptyString => emotionToGenre_fallback e
      | _ => Str genre
      end
  end.

(** ** The search route ([pages/api/youtube-search]) *)

Module Api.

Record YoutubeTrack : Type := mk {
  id : string;
  title : string;
  thumbnail : string
}.

Record ResponseData : Type := {
  tracks : list YoutubeTrack;
  error : option string
}.

(** [res.status(status).json(body)] *)
Record Response : Type := {
  status : nat;
  body : ResponseData
}.

(** [req.query.query]: absent, one string, or several. *)
Inductive query_value : Type :=
| Absent
| Single (s : string)
| Many (l : list string).

(** [!query]: an array, even an empty one, is truthy. *)
Definition not_query (query : query_value) : bool :=
  match query with
  | Absent | Single EmptyString => true
  | Single _ | Many _ => false
  end.

(** [l.join(',')] *)
Fixpoint join_comma (l : list string) : string :=
  match l with
  | [] => EmptyString
  | [s] => s
  | s :: l' => s +:+ "," +:+ join_comma l'
  end.

(** [query.toString()] *)
Definition query_toString (query : query_value) : string :=
  match query with
  | Absent => EmptyString
  | Single s => s
  | Many l => join_comma l
  end.

(** The mock table, entries in the order of the object literal. *)
Definition mockResults : list (string * list YoutubeTrack) :=
  [
   ("upbeat happy music",
     [mk "dQw4w9WgXcQ" "Happy Vibes"
         "https://i.ytimg.com/vi/dQw4w9WgXcQ/hqdefault.jpg";
      mk "y6120QOlsfU" "Uplifting Rhythm"
         "https://i.ytimg.com/vi/y6120QOlsfU/hqdefault.jpg";
      mk "L_jWHffIx5E" "Sunny Day"
         "https://i.ytimg.com/vi/L_jWHffIx5E/hqdefault.jpg"]);
   ("melancholic piano music",
     [mk "rR94NDIfGmA" "Rainy Day Piano"
         "https://i.ytimg.com/vi/rR94NDIfGmA/hqdefault.jpg";
      mk "4N3N1MlvVc4" "Melancholy Sonata"
         "https://i.ytimg.com/vi/4N3N1MlvVc4/hqdefault.jpg";
      mk "wAPCSnAhhC8" "Nostalgic Memories"
         "https://i.ytimg.com/vi/wAPCSnAhhC8/hqdefault.jpg"]);
   ("calming ambient music",
     [mk "DWcJFNfaw9c" "Tranquil Waters"
         "https://i.ytimg.com/vi/DWcJFNfaw9c/hqdefault.jpg";
      mk "lTRiuFIWV54" "Forest Ambience"
         "https://i.ytimg.com/vi/lTRiuFIWV54/hqdefault.jpg";
      mk "hHW1oY26kxQ" "Peaceful Horizon"
         "https://i.ytimg.com/vi/hHW1oY26kxQ/hqdefault.jpg"]);
   ("relaxing meditation music",
     [mk "5qap5aO4i9A" "Zen Garden"
         "https://i.ytimg.com/vi/5qap5aO4i9A/hqdefault.jpg";
      mk "DfG6VKnjrVw" "Inner Peace"
         "https://i.ytimg.com/vi/DfG6VKnjrVw/hqdefault.jpg";
      mk "lFcSrYw-ARY" "Mindful Moments"
         "https://i.ytimg.com/vi/lFcSrYw-ARY/hqdefault.jpg"]);
   ("soothing acoustic music",
     [mk "jdYJf_ybyVo" "Gentle Guitar"
         "https://i.ytimg.com/vi/jdYJf_ybyVo/hqdefault.jpg";
      mk "HSOtku1j600" "Acoustic Dreams"
         "https://i.ytimg.com/vi/HSOtku1j600/hqdefault.jpg";
      mk "KkOF8UiB7u8" "Campfire Melodies"
         "https://i.ytimg.com/vi/KkOF8UiB7u8/hqdefault.jpg"]);
   ("inspirational orchestral music",
     [mk "oN2Xs-MvxLw" "Epic Journey"
         "https://i.ytimg.com/vi/oN2Xs-MvxLw/hqdefault.jpg";
      mk "FK30dkXOTck" "New Horizons"
         "https://i.ytimg.com/vi/FK30dkXOTck/hqdefault.jpg";
      mk "XYKUeZQbMF0" "Awakening"
         "https://i.ytimg.com/vi/XYKUeZQbMF0/hqdefault.jpg"]);
   ("lofi study beats",
     [mk "5qap5aO4i9A" "Chill Beats to Study To"
         "https://i.ytimg.com/vi/5qap5aO4i9A/hqdefault.jpg";
      mk "bmVKaAV_7-A" "Lofi Cafe"
         "https://i.ytimg.com/vi/bmVKaAV_7-A/hqdefault.jpg";
      mk "DWcJFNfaw9c" "Late Night Study Session"
         "https://i.ytimg.com/vi/DWcJFNfaw9c/hqdefault.jpg"])
  ]%string.

(** [mockResults[key]] *)
Definition mockResults_at (key : string) : option (list YoutubeTrack) :=
  list_to_map (M := gmap string (list YoutubeTrack)) mockResults !! key.

(** [handler(req, res)] on [req.method] and [req.query.query]; what it sends.
    For these inputs nothing in its [try] block throws. *)
Definition handler (method : string) (query : query_value) : Response :=
  if negb (String.eqb method "GET") then
    {| status := 405;
       body := {| tracks := []; error := Some "Method not allowed"%string |} |}
  else if not_query query then
    {| status := 400;
       body := {| tracks := []; error := Some "Missing query parameter"%string |} |}
  else
    let queryString := toLowerCase (query_toString query) in
    let bestMatch :=
      match list_find (fun key => key_matches queryString key = true)
              (mockResults.*1) with
      | Some (_, key) => key
      | None => "lofi study beats"%string
      end in
    let tracks :=
      match mockResults_at bestMatch with
      | Some found => found
      | None => default [] (mockResults_at "lofi study beats")
      end in
    {| status := 200; body := {| tracks := tracks; error := None |} |}.

End Api.

(** What [axios.get] makes of an answer of the route, as
    [searchYouTubeVideos] reads it: the tracks of a 2xx answer, a rejection
    for any other status. *)
Definition deliver (response : Api.Response)
  : outcome (option (list YouTubeTrack)) :=
  if (200 <=? Api.status response)%nat && (Api.status response <? 300)%nat then
    Returned (Some ((fun t => {| id := Api.id t; title := Api.title t;
                                  thumbnail := Some (Api.thumbnail t) |})
                    <$> Api.tracks (Api.body response)))
  else Thrown (ExternalError "Request failed").

(** What identifies a track for the player: its id and its title. *)
Definition id_title (t : YouTubeTrack) : string * string := (id t, title t).

(** ** The music player ([MusicPlayer]) *)

(** [tracks.findIndex(t => t.id === wanted)]; [None] stands for -1. *)
Definition findIndex_id (tracks : list YouTubeTrack) (wanted : string) : option nat :=
  fst <$> list_find (fun t => id t = wanted) tracks.

(** [(currentIndex + 1) % tracks.length] *)
Definition nextIndex (tracks : list YouTubeTrack) (currentTrack : YouTubeTrack) : nat :=
  (match findIndex_id tracks (id currentTrack) with
   | Some currentIndex => currentIndex + 1
   | None => 0
   end mod length tracks)%nat.

(** [handleNext()]: the track it hands to [loadAndPlayTrack], if any. *)
Definition handleNext (tracks : list YouTubeTrack) (currentTrack : option YouTubeTrack)
  : option YouTubeTrack :=
  match currentTrack with
  | None => None
  | Some current =>
      if bool_decide (length tracks = 0%nat) then None
      else tracks !! nextIndex tracks current
  end.

(** The current track once [handleNext] and [loadAndPlayTrack] are through. *)
Definition after_next (tracks : list YouTubeTrack) (current : YouTubeTrack)
  : YouTubeTrack :=
  default current (handleNext tracks (Some current)).

(** The updater of [setProgress] in the interval of [loadAndPlayTrack]: the
    new progress, and whether [handleNext] was called. *)
Definition progress_tick (prev : Qc) : Qc * bool :=
  if decide (Qc_of_Z 100 <= prev)%Qc then (0%Qc, true)
  else ((prev + Q2Qc (1 # 2))%Qc, false).

(** The progress after [k] ticks of the interval, from [setProgress(0)]. *)
Definition progress_after (k : nat) : Qc :=
  Nat.iter k (fun prev => (progress_tick prev).1) 0%Qc.

(** ** The chat window ([ChatInterface]) *)

(** The copy of the tone table that [ChatInterface] declares. *)
Definition chat_emotionToTone : gmap string string :=
  list_to_map
    [("happy", "enthusiastic and upbeat");
     ("sad", "empathetic and comforting");
     ("angry", "calm and de-escalating");
     ("calm", "peaceful and measured");
     ("fear", "reassuring and supportive");
     ("surprise", "engaged and attentive");
     ("neutral", "balanced and informative")]%string.

(** The [tone] constant of [handleSendMessage]:
    [currentEmotion ? emotionToTone[currentEmotion] : 'neutral and helpful'],
    without a default after the table read. *)
Definition chat_tone (currentEmotion : option string) : value :=
  match currentEmotion with
  | None | Some EmptyString => Str "neutral and helpful"
  | Some e => get_property chat_emotionToTone e
  end.

Definition mockResponses : list (string * list string) :=
  [
   ("happy",
     ["That's fantastic! I'm so happy to hear that. What else is making you smile today?";
      "Wonderful news! Your positive energy is contagious. Tell me more!";
      "I'm thrilled things are going well for you! Let's keep that positive momentum going!"]);
   ("sad",
     ["I understand that feeling. It's okay to feel down sometimes. Would you like to talk about what's troubling you?";
      "I'm here for you during this difficult time. Remember that these feelings won't last forever.";
      "It sounds like you're going through a tough moment. Would sharing more about it help lighten the burden?"]);
   ("angry",
     ["I understand you're feeling frustrated. Let's take a step back and look at this calmly.";
      "It makes sense that you'd feel that way. Once we process these feelings, we can think about constructive next steps.";
      "Your feelings are valid. Would it help to talk through what triggered this reaction?"]);
   ("calm",
     ["It sounds like you're in a peaceful state of mind. That's a wonderful place to be for reflection.";
      "This tranquil energy is perfect for mindful conversation. What's on your mind today?";
      "I appreciate your centered approach. How can we maintain this balanced perspective?"]);
   ("fear",
     ["It's natural to feel anxious about this. Remember that you've overcome difficult situations before.";
      "I understand your concerns. Let's break this down into smaller, manageable parts.";
      "Your feelings of worry are completely valid. Would it help to discuss specific strategies for this situation?"]);
   ("surprise",
     ["Wow, that's unexpected! I'd love to hear more about this development.";
      "That's quite the surprise! How are you processing this new information?";
      "I can understand why that would catch you off guard! What aspect of this surprises you most?"]);
   ("neutral",
     ["Thanks for sharing that with me. Would you like to explore this topic further?";
      "I appreciate your perspective. What other thoughts do you have on this matter?";
      "That's an interesting point. Could you elaborate on what you mean?"])
  ]%string.

(** [mockResponses[key]] on an own key. *)
Definition mockResponses_at (key : string) : option (list string) :=
  list_to_map (M := gmap string (list string)) mockResponses !! key.

(** [Math.floor(Math.random() * length)], for the draw [r]. *)
Definition randomIndex (r : Qc) (length : nat) : nat :=
  Z.to_nat (Qfloor (r * Qc_of_Z (Z.of_nat length))%Qc).

(** [getMockResponse(emotion)] for the draw [r]; [None] is [undefined].  A key
    that object literals inherit reads as a built-in, which is truthy and has
    no element at any index. *)
Definition getMockResponse (r : Qc) (emotion : option string) : option string :=
  let emotionKey := string_or emotion "neutral" in
  match mockResponses_at emotionKey with
  | Some responses => responses !! randomIndex r (length responses)
  | None =>
      match Object_prototype !! emotionKey with
      | Some _ => None
      | None =>
          responses ← mockResponses_at "neutral";
          responses !! randomIndex r (length responses)
      end
  end.

(** ** The training of the hook ([useEmotionClassifier]) *)

(** The four pieces of state of the hook. *)
Record classifier_hook : Type := {
  hook_classifier : option NeuralNetwork;
  hook_isTraining : bool;
  hook_trainError : option string;
  hook_isReady : bool
}.

(** The state at the first render. *)
Definition initial_hook : classifier_hook :=
  {| hook_classifier := None; hook_isTraining := false;
     hook_trainError := None; hook_isReady := false |}.

(** [error.message] *)
Definition exn_message (e : exn) : string :=
  match e with
  | Error message | ExternalError message => message
  end.

(** [initClassifier()], run once by the effect.  [training] is what building
    the network and [net.trainAsync] come to: the trained network, or an
    exception. *)
Definition initClassifier (training : outcome NeuralNetwork) (h : classifier_hook)
  : classifier_hook :=
  let h := {| hook_classifier := hook_classifier h; hook_isTraining := true;
              hook_trainError := None; hook_isReady := hook_isReady h |} in
  let h :=
    match training with
    | Returned net =>
        {| hook_classifier := Some net; hook_isTraining := hook_isTraining h;
           hook_trainError := hook_trainError h; hook_isReady := true |}
    | Thrown e =>
        {| hook_classifier := hook_classifier h; hook_isTraining := hook_isTraining h;
           hook_trainError :=
             Some (string_or (Some (exn_message e)) "Unknown error during training");
           hook_isReady := hook_isReady h |}
    end in
  {| hook_classifier := hook_classifier h; hook_isTraining := false;
     hook_trainError := hook_trainError h; hook_isReady := hook_isReady h |}.

(** What [classify] closes over. *)
Definition hook_view (h : classifier_hook) : hook_state :=
  {| classifier := hook_classifier h; isReady := hook_isReady h |}.

(** [s] between double quotes. *)
Definition quoted (s : string) : string :=
  String quote (s +:+ String quote EmptyString).

(** A chat endpoint that is down, and one that always answers [reply]. *)
Definition post_down : list Message -> post_result :=
  fun _ => Failed None (Some "Network Error"%string).

Definition post_reply (reply : string) : list Message -> post_result :=
  fun _ => Replied (Some reply).

(** The readings of [finite_features], each raised by 5. *)
Definition raised_features : gmap string Qc :=
  list_to_map [("eeg1", Qc_of_Z 65); ("eeg2", Qc_of_Z (-65)); ("eeg3", Qc_of_Z 30)]%string.

(** Draws that are all 1/2, and a clock. *)
Definition middle_draws : draws :=
  let h := Q2Qc (1 # 2) in
  {| draw1 := h; draw2 := h; draw3 := h; draw4 := h;
     draw5 := h; draw6 := h; draw7 := h; draw8 := h |}.

(** ** More tactics *)

(** Linear goals on canonical rationals: the operations are unfolded to [Q],
    the reductions are rewritten away, and [lra] concludes. *)
Ltac Qc_lra :=
  try (f_equal; apply Qc_is_canon);
  unfold Qcle, Qclt, Qcminus, Qcplus, Qcopp, Qcmult, Q2Qc, Qc_of_Z in *;
  cbn [this] in *;
  repeat match goal with
         | H : context [Qred _] |- _ => rewrite Qred_correct in H
         end;
  rewrite ?Qred_correct;
  unfold inject_Z in *;
  lra.

(** [unit_draws] on concrete draws. *)
Ltac concrete_draws :=
  repeat (apply Forall_cons; split; [split; by vm_compute|]); apply Forall_nil_2.

(** ** Tactics *)

(** Order goals on canonical rationals, sent to [lra] over [Q]. *)
Ltac Qc_order :=
  try (f_equal; apply Qc_is_canon);
  unfold Qclt, Qcle in *;
  change (this (Q2Qc 0)) with 0%Q in *; change (this (Q2Qc 1)) with 1%Q in *;
  simpl in *; lra.

(** Case analysis on a hypothesis [H : e ∈ EMOTIONS]. *)
Ltac each_label H :=
  unfold EMOTIONS in H; rewrite ?elem_of_cons, elem_of_nil in H;
  repeat (destruct H as [-> | H]; [|]); [..| destruct H].

(** * Facts *)

(** ** Numbers *)

Section number_facts.

Local Open Scope number_scope.

Lemma Qc_of_Z_0 : Qc_of_Z 0 = 0%Qc.
Proof. by apply Qc_is_canon. Qed.

Lemma Qc_of_Z_1 : Qc_of_Z 1 = 1%Qc.
Proof. by apply Qc_is_canon. Qed.

Lemma Qc_of_Z_pos (z : Z) : (0 < z)%Z -> (0 < Qc_of_Z z)%Qc.
Proof.
  intros Hz. unfold Qclt, Qlt. simpl. lia.
Qed.

Lemma add_assoc (x y z : number) : x + (y + z) = (x + y) + z.
Proof.
  destruct x, y, z; simpl; try reflexivity.
  f_equal. ring.
Qed.

Lemma add_0_l (x : number) : of_Z 0 + x = x.
Proof.
  unfold of_Z. rewrite Qc_of_Z_0.
  destruct x; simpl; try reflexivity. f_equal. ring.
Qed.

(** Division by a positive finite number distributes over addition. *)
Lemma div_add_distr (x y : number) (q : Qc) :
  (0 < q)%Qc -> (x + y) / Fin q = x / Fin q + y / Fin q.
Proof.
  intros Hq.
  assert (Hne : q <> 0%Qc) by (intros ->; by apply (Qclt_not_eq 0 0)%Qc in Hq).
  assert (Hnlt : ~ (q < 0)%Qc) by (by apply Qcle_not_lt, Qclt_le_weak).
  destruct x, y; simpl; repeat case_decide; simpl; try done.
  f_equal. by field.
Qed.

Lemma div_0_l (q : Qc) : (0 < q)%Qc -> of_Z 0 / Fin q = of_Z 0.
Proof.
  intros Hq.
  assert (Hne : q <> 0%Qc) by (intros ->; by apply (Qclt_not_eq 0 0)%Qc in Hq).
  unfold of_Z. rewrite Qc_of_Z_0. simpl. case_decide; [done|].
  f_equal. by field.
Qed.

(** Accumulating [v / n] per element is the same as dividing the accumulated
    sum once. *)
Lemma foldl_div_acc (q : Qc) (xs : list number) (acc : number) :
  (0 < q)%Qc ->
  foldl (fun a v => a + v / Fin q) (acc / Fin q) xs
  = foldl JsNumber.add acc xs / Fin q.
Proof.
  intros Hq. revert acc.
  induction xs as [|x xs IH]; intros acc; simpl; [done|].
  by rewrite <- div_add_distr, IH.
Qed.

Lemma foldl_div_mean (xs : list number) :
  xs <> [] ->
  foldl (fun a v => a + v / of_nat (length xs)) (of_Z 0) xs = mean xs.
Proof.
  intros Hne. unfold mean, sum, of_nat, of_Z at 1 3.
  assert (Hq : (0 < Qc_of_Z (Z.of_nat (length xs)))%Qc).
  { apply Qc_of_Z_pos. destruct xs; [done | simpl; lia]. }
  rewrite <- (div_0_l _ Hq) at 1.
  by apply foldl_div_acc.
Qed.

End number_facts.

Lemma Qc_0_lt_1 : (0 < 1)%Qc.
Proof. reflexivity. Qed.

Lemma clampQ_range (x : Qc) : (0 <= clampQ x)%Qc /\ (clampQ x <= 1)%Qc.
Proof. unfold clampQ. repeat case_decide; split; Qc_order. Qed.

Lemma clampQ_above (x : Qc) : (1 <= x)%Qc -> clampQ x = 1%Qc.
Proof. intros. unfold clampQ. repeat case_decide; Qc_order. Qed.

Lemma clampQ_below (x : Qc) : (x <= 0)%Qc -> clampQ x = 0%Qc.
Proof. intros. unfold clampQ. repeat case_decide; Qc_order. Qed.

Lemma clamp01_Fin (x : Qc) : clamp01 (Fin x) = Fin (clampQ x).
Proof.
  unfold clamp01, clampQ, of_Z. rewrite Qc_of_Z_0, Qc_of_Z_1.
  pose proof Qc_0_lt_1 as H01.
  destruct (Qc_dec x 0) as [[Hx|Hx]|Hx]; destruct (Qc_dec x 1) as [[Hy|Hy]|Hy];
    simpl; repeat (case_bool_decide; simpl); repeat case_decide; subst; try done.
  all: Qc_order.
Qed.

Section affine_map.

Variables low high : Qc.
Hypothesis low_lt_high : (low < high)%Qc.

Let width : Qc := (high + - low)%Qc.

Lemma width_pos : (0 < width)%Qc.
Proof. unfold width. by apply (proj1 (Qclt_minus_iff low high)). Qed.

Lemma width_nonzero : width <> 0%Qc.
Proof. intros E. pose proof width_pos as H. rewrite E in H. Qc_order. Qed.

Lemma ratio_above (v : Qc) : (high <= v)%Qc -> (1 <= (v + - low) / width)%Qc.
Proof.
  intros Hv. rewrite <- (Qcmult_inv_r width) by apply width_nonzero.
  apply Qcmult_le_mono_nonneg_r.
  - apply Qclt_le_weak, Qcinv_pos, width_pos.
  - unfold width. by apply Qcplus_le_mono_r.
Qed.

Lemma ratio_below (v : Qc) : (v <= low)%Qc -> ((v + - low) / width <= 0)%Qc.
Proof.
  intros Hv. rewrite <- (Qcmult_0_l (/ width)).
  apply Qcmult_le_mono_nonneg_r.
  - apply Qclt_le_weak, Qcinv_pos, width_pos.
  - rewrite <- (Qcplus_opp_r low). by apply Qcplus_le_mono_r.
Qed.

(** One channel of [normalizeFeatures] on finite numbers. *)
Lemma normalize_channel (v : Qc) :
  clamp01 ((Fin v - Fin low) / (Fin high - Fin low))%num
  = Fin (clampQ ((v + - low) / width)).
Proof.
  unfold JsNumber.sub. simpl. fold width.
  rewrite decide_False by apply width_nonzero.
  apply clamp01_Fin.
Qed.

End affine_map.

(** ** Feature extraction *)

Lemma accumulate_obj8 len s a1 a2 a3 a4 a5 a6 a7 a8 :
  accumulate len (obj8 a1 a2 a3 a4 a5 a6 a7 a8) s
  = obj8 (a1 + eeg1 s / len) (a2 + eeg2 s / len) (a3 + eeg3 s / len)
         (a4 + eeg4 s / len) (a5 + eeg5 s / len) (a6 + eeg6 s / len)
         (a7 + eeg7 s / len) (a8 + eeg8 s / len).
Proof. reflexivity. Qed.

Lemma foldl_accumulate_obj8 len (eegData : list EegChannelData)
    a1 a2 a3 a4 a5 a6 a7 a8 :
  let acc proj a := foldl (fun a v => a + v / len)%num a (proj <$> eegData) in
  foldl (accumulate len) (obj8 a1 a2 a3 a4 a5 a6 a7 a8) eegData
  = obj8 (acc eeg1 a1) (acc eeg2 a2) (acc eeg3 a3) (acc eeg4 a4)
         (acc eeg5 a5) (acc eeg6 a6) (acc eeg7 a7) (acc eeg8 a8).
Proof.
  revert a1 a2 a3 a4 a5 a6 a7 a8.
  induction eegData as [|s l IH]; intros; [done|].
  simpl. rewrite accumulate_obj8. apply IH.
Qed.

Lemma dom_obj8 a1 a2 a3 a4 a5 a6 a7 a8 :
  dom (obj8 a1 a2 a3 a4 a5 a6 a7 a8) = list_to_set (C := gset string) channel_keys.
Proof. unfold obj8. by rewrite dom_list_to_map_L. Qed.

Lemma lookup_obj8 a1 a2 a3 a4 a5 a6 a7 a8 key proj :
  (key, proj) ∈ channels ->
  obj8 a1 a2 a3 a4 a5 a6 a7 a8 !! key
  = Some (proj {| eeg1 := a1; eeg2 := a2; eeg3 := a3; eeg4 := a4;
                  eeg5 := a5; eeg6 := a6; eeg7 := a7; eeg8 := a8;
                  timestamp := NaN |}).
Proof.
  unfold channels. rewrite !elem_of_cons, elem_of_nil.
  intros H. repeat (destruct H as [[= -> ->] | H]; [reflexivity|]). done.
Qed.

(** C1. For every non-empty sequence of samples, [extractFeatures] returns an
    object whose keys are exactly [eeg1], ..., [eeg8], and the value at each
    key is the arithmetic mean of that channel over the sequence (exact
    arithmetic stands for the floating-point tolerance). *)
Theorem extractFeatures_mean (eegData : list EegChannelData) :
  eegData <> [] ->
  exists features : gmap string number,
    extractFeatures eegData = Returned features
    /\ dom features = list_to_set (C := gset string) channel_keys
    /\ size (dom features) = 8%nat
    /\ forall key proj, (key, proj) ∈ channels ->
         features !! key = Some (mean (proj <$> eegData)).
Proof.
  intros Hne. unfold extractFeatures.
  rewrite bool_decide_eq_false_2 by (by destruct eegData).
  eexists. split; [reflexivity|].
  change zero_features with
    (obj8 (of_Z 0) (of_Z 0) (of_Z 0) (of_Z 0) (of_Z 0) (of_Z 0) (of_Z 0) (of_Z 0)).
  rewrite foldl_accumulate_obj8. cbv zeta.
  rewrite dom_obj8.
  split; [reflexivity|].
  split; [by vm_compute|].
  intros key proj Hin.
  assert (Hm : forall p : EegChannelData -> number,
    foldl (fun a v => a + v / of_nat (length eegData))%num (of_Z 0) (p <$> eegData)
    = mean (p <$> eegData)).
  { intros p. rewrite <- (length_fmap p eegData).
    apply foldl_div_mean. by destruct eegData. }
  rewrite !Hm.
  rewrite (lookup_obj8 _ _ _ _ _ _ _ _ key proj Hin).
  unfold channels in Hin. rewrite !elem_of_cons, elem_of_nil in Hin.
  repeat (destruct Hin as [[= -> ->] | Hin]; [reflexivity|]). done.
Qed.

Example extractFeatures_two_samples :
  extractFeatures two_samples
  = Returned (obj8 (of_Z 15) (of_Z 30) (of_Z 40) (of_Z 50)
                   (of_Z (-20)) (of_Z (-30)) (of_Z (-40)) (of_Z (-50))).
Proof. compute_done. Qed.

Lemma extractFeatures_mean_witness :
  two_samples <> []
  /\ exists features : gmap string number,
       extractFeatures two_samples = Returned features
       /\ features !! "eeg1"%string = Some (mean (eeg1 <$> two_samples)).
Proof.
  split; [discriminate|].
  destruct (extractFeatures_mean two_samples) as (features & Hret & _ & _ & Hmean);
    [discriminate|].
  exists features. split; [exact Hret|].
  apply Hmean. unfold channels. apply list_elem_of_here.
Defined.

(** C4. On the empty sequence [extractFeatures] throws its error (the
    [EmptyInputError] of the specification), and on every non-empty sequence
    it returns. *)
Theorem extractFeatures_empty_throws :
  extractFeatures [] = Thrown (Error "No EEG data provided for feature extraction")
  /\ forall sample rest, returns (extractFeatures (sample :: rest)).
Proof.
  split; [reflexivity|].
  intros sample rest. unfold returns, extractFeatures.
  rewrite bool_decide_eq_false_2 by done. eauto.
Qed.

(** ** Normalisation *)


Example normalizeFeatures_default_bounds :
  normalizeFeatures (Fin <$> finite_features) default_min default_max
  = Returned (list_to_map [("eeg1", of_Z 1); ("eeg2", of_Z 0);
                           ("eeg3", Fin (Q2Qc (3 # 4)))]%string).
Proof. compute_done. Qed.


(** Against C3 as stated: with the bounds swapped ([high = -50 <= low = 50])
    the call returns; the map is merely reversed and 0 lands on 1/2. *)
Lemma normalizeFeatures_inverted_bounds_returns :
  JsNumber.leb (of_Z (-50)) (of_Z 50) = true
  /\ normalizeFeatures zero_features (of_Z 50) (of_Z (-50))
     = Returned (obj8 half half half half half half half half)
  /\ ~ throws (normalizeFeatures zero_features (of_Z 50) (of_Z (-50))).
Proof.
  split; [reflexivity|]. split; [compute_done|].
  intros [e He]. discriminate He.
Qed.

(** With equal bounds the division is by zero: the value on the bound becomes
    [NaN], the others 1 or 0. *)
Example normalizeFeatures_equal_bounds :
  normalizeFeatures
    (obj8 (of_Z 7) (of_Z 8) (of_Z 6) (of_Z 7) (of_Z 7) (of_Z 7) (of_Z 7) (of_Z 7))
    (of_Z 7) (of_Z 7)
  = Returned (obj8 NaN (of_Z 1) (of_Z 0) NaN NaN NaN NaN NaN).
Proof. compute_done. Qed.

(** C3. With [high <= low] nothing is thrown either: [normalizeFeatures]
    contains no validation of its bounds; it returns an object with the keys
    of its argument, each value rescaled and clamped with the bounds as
    given. *)
Theorem normalizeFeatures_never_throws
    (features : gmap string number) (low high : number) :
  JsNumber.leb high low = true ->
  exists normalized : gmap string number,
    normalizeFeatures features low high = Returned normalized
    /\ dom normalized = dom features
    /\ forall key,
         normalized !! key
         = (fun v => clamp01 ((v - low) / (high - low))%num) <$> (features !! key).
Proof.
  intros _. eexists. split; [reflexivity|].
  split; [by rewrite dom_fmap_L|].
  intros key. by rewrite lookup_fmap.
Qed.

Lemma normalizeFeatures_never_throws_witness :
  JsNumber.leb (of_Z (-50)) (of_Z 50) = true
  /\ exists normalized : gmap string number,
       normalizeFeatures zero_features (of_Z 50) (of_Z (-50)) = Returned normalized
       /\ dom normalized = dom zero_features.
Proof.
  split; [reflexivity|].
  destruct (normalizeFeatures_never_throws zero_features (of_Z 50) (of_Z (-50)))
    as (normalized & Hret & Hdom & _); [reflexivity|].
  exists normalized. split; [exact Hret | exact Hdom].
Defined.

(** ** The sample buffer *)

Lemma slice_last_app {A} (n : nat) (l : list A) (x : A) :
  (0 < n)%nat ->
  slice_last n (slice_last n l ++ [x]) = slice_last n (l ++ [x]).
Proof.
  intros Hn. unfold slice_last. rewrite !length_app, length_drop. simpl.
  destruct (decide (length l <= n)%nat) as [Hle|Hgt].
  - replace (length l - n)%nat with 0%nat by lia. simpl.
    by replace (length l - 0 + 1 - n)%nat with (length l + 1 - n)%nat by lia.
  - replace (length l - (length l - n) + 1 - n)%nat with 1%nat by lia.
    rewrite !drop_app_le by (rewrite ?length_drop; lia).
    rewrite drop_drop. do 2 f_equal. lia.
Qed.

Lemma buffer_after_snoc (samples : list EegChannelData) (x : EegChannelData) :
  buffer_after (samples ++ [x]) = append_sample (buffer_after samples) x.
Proof. unfold buffer_after. by rewrite foldl_app. Qed.

Lemma buffer_after_slice (samples : list EegChannelData) :
  buffer_after samples = slice_last 100 samples.
Proof.
  induction samples as [|x samples IH] using rev_ind; [done|].
  rewrite buffer_after_snoc, IH. apply slice_last_app. lia.
Qed.

(** C9. After every append the buffer holds exactly the most recent
    [min n 100] samples in order; it never holds more than 100, and a full
    buffer loses its oldest sample on each append. *)
Theorem buffer_bounded_fifo (samples : list EegChannelData) :
  buffer_after samples = drop (length samples - 100) samples
  /\ length (buffer_after samples) = Nat.min (length samples) 100
  /\ (length (buffer_after samples) <= 100)%nat
  /\ forall newData,
       buffer_after (samples ++ [newData])
       = (if decide (length (buffer_after samples) = 100%nat)
          then drop 1 (buffer_after samples)
          else buffer_after samples) ++ [newData].
Proof.
  rewrite buffer_after_slice. unfold slice_last.
  split; [done|].
  assert (Hlen : length (drop (length samples - 100) samples)
                 = Nat.min (length samples) 100) by (rewrite length_drop; lia).
  split; [done|]. split; [lia|].
  intros newData. rewrite buffer_after_snoc, buffer_after_slice.
  unfold append_sample, slice_last.
  set (buf := drop (length samples - 100) samples) in *.
  rewrite length_app. simpl.
  case_decide as Hfull.
  - rewrite Hfull. simpl. rewrite drop_app_le by lia. done.
  - by replace (length buf + 1 - 100)%nat with 0%nat by lia.
Qed.

Example buffer_after_short : buffer_after two_samples = two_samples.
Proof. reflexivity. Qed.

Example buffer_after_evicts :
  let old := sample_of 1 1 1 1 1 1 1 1 in
  let new := sample_of 2 2 2 2 2 2 2 2 in
  buffer_after (replicate 100 old ++ [new]) = replicate 99 old ++ [new].
Proof. reflexivity. Qed.

(** ** Label selection *)

Lemma keep_highest_finite result score e h d :
  result !! e = Some (Fin (score e)) ->
  keep_highest result (Fin h, d) e
  = if decide (h < score e)%Qc then (Fin (score e), e) else (Fin h, d).
Proof.
  intros Hs. unfold keep_highest. rewrite Hs. simpl.
  by case_bool_decide; case_decide.
Qed.

(** The running maximum over a list of labels, from the state [(h, d)]:
    either nothing exceeded [h], or the result is the first maximal label. *)
Lemma foldl_keep_highest result score labels :
  scores result score labels ->
  forall h d,
    (foldl (keep_highest result) (Fin h, d) labels = (Fin h, d)
     /\ forall e, e ∈ labels -> (score e <= h)%Qc)
    \/ (exists label,
          foldl (keep_highest result) (Fin h, d) labels = (Fin (score label), label)
          /\ (h < score label)%Qc
          /\ first_highest score labels label).
Proof.
  induction labels as [|e labels IH]; intros Hsc h d.
  { left. split; [done|]. intros e He. by apply elem_of_nil in He. }
  assert (Hsc' : scores result score labels).
  { intros e' He'. apply Hsc. by apply list_elem_of_further. }
  simpl. rewrite (keep_highest_finite result score) by (apply Hsc; apply list_elem_of_here).
  case_decide as Hlt.
  - right. destruct (IH Hsc' (score e) e) as [[Heq Hle] | (label & Heq & Hgt & i & Hi & Hmax & Hfirst)].
    + exists e. split; [done|]. split; [done|].
      exists 0%nat. split; [done|]. split.
      * intros e' [->|He']%elem_of_cons; [apply Qcle_refl | by apply Hle].
      * intros j e' Hj. lia.
    + exists label. split; [done|]. split; [by eapply Qclt_trans|].
      exists (S i). split; [done|]. split.
      * intros e' [->|He']%elem_of_cons; [by apply Qclt_le_weak | by apply Hmax].
      * intros [|j] e' Hj He'; simpl in He'.
        -- by injection He' as <-.
        -- apply (Hfirst j); [lia | done].
  - apply Qcnot_lt_le in Hlt.
    destruct (IH Hsc' h d) as [[Heq Hle] | (label & Heq & Hgt & i & Hi & Hmax & Hfirst)].
    + left. split; [done|].
      intros e' [->|He']%elem_of_cons; [done | by apply Hle].
    + right. exists label. split; [done|]. split; [done|].
      exists (S i). split; [done|]. split.
      * intros e' [->|He']%elem_of_cons;
          [by apply Qclt_le_weak, (Qcle_lt_trans _ h) | by apply Hmax].
      * intros [|j] e' Hj He'; simpl in He'.
        -- injection He' as <-. by apply (Qcle_lt_trans _ h).
        -- apply (Hfirst j); [lia | done].
Qed.

(** Whatever [run] answers, the label comes from the initial state or from the
    list that is scanned. *)
Lemma foldl_keep_highest_label result labels st :
  (foldl (keep_highest result) st labels).2 = st.2
  \/ (foldl (keep_highest result) st labels).2 ∈ labels.
Proof.
  revert st. induction labels as [|e labels IH]; intros st; simpl; [by left|].
  destruct (IH (keep_highest result st e)) as [Heq | Hin].
  - rewrite Heq. unfold keep_highest.
    destruct (result !! e) as [score|]; [|by left].
    destruct (JsNumber.gtb score st.1); [right; apply list_elem_of_here | by left].
  - right. by apply list_elem_of_further.
Qed.

Lemma detectEmotion_label result : detectEmotion result ∈ EMOTIONS.
Proof.
  unfold detectEmotion.
  destruct (foldl_keep_highest_label result EMOTIONS (of_Z 0, "neutral"%string))
    as [-> | H]; [|done].
  simpl. unfold EMOTIONS. set_solver.
Qed.

Lemma zero_result_scores : scores zero_result (fun _ => 0%Qc) EMOTIONS.
Proof. intros e He. each_label He; reflexivity. Qed.

(** Against C5 as stated: on a tie at 0 the selection keeps its initial ["neutral"], which is the
    last label of the enumeration, not the first. *)
Lemma detectEmotion_tie_at_zero :
  scores zero_result (fun _ => 0%Qc) EMOTIONS
  /\ detectEmotion zero_result = "neutral"%string
  /\ ~ first_highest (fun _ => 0%Qc) EMOTIONS (detectEmotion zero_result).
Proof.
  split; [apply zero_result_scores|]. split; [reflexivity|].
  change (detectEmotion zero_result) with "neutral"%string.
  intros (i & Hi & _ & Hfirst).
  assert (Hpos : (0 < i)%nat).
  { destruct i; [discriminate Hi | lia]. }
  by apply (Qclt_not_eq 0 0 (Hfirst 0%nat "happy"%string Hpos eq_refl)).
Qed.

(** C5. When some label has a score above 0, [detectEmotion] returns the
    first label of the enumeration with the highest score; when no score is
    above 0 it returns ["neutral"]. *)
Theorem detectEmotion_first_highest
    (result : gmap string number) (score : string -> Qc) :
  scores result score EMOTIONS ->
  ((exists e, e ∈ EMOTIONS /\ (0 < score e)%Qc) ->
     first_highest score EMOTIONS (detectEmotion result)
     /\ (0 < score (detectEmotion result))%Qc)
  /\ ((forall e, e ∈ EMOTIONS -> (score e <= 0)%Qc) ->
     detectEmotion result = "neutral"%string).
Proof.
  intros Hsc. unfold detectEmotion, of_Z. rewrite Qc_of_Z_0.
  destruct (foldl_keep_highest result score EMOTIONS Hsc 0%Qc "neutral"%string)
    as [[Heq Hle] | (label & Heq & Hgt & Hfirst)]; rewrite Heq; simpl.
  - split; [|done]. intros (e & He & Hpos).
    exfalso. by apply (Qclt_not_le _ _ Hpos), Hle.
  - split; [done|]. intros Hle. exfalso.
    destruct Hfirst as (i & Hi & _). apply (Qclt_not_le _ _ Hgt), Hle.
    by eapply list_elem_of_lookup_2.
Qed.

Example detectEmotion_happy_result : detectEmotion happy_result = "happy"%string.
Proof. reflexivity. Qed.

Lemma detectEmotion_first_highest_witness :
  scores happy_result (score_of happy_result) EMOTIONS
  /\ first_highest (score_of happy_result) EMOTIONS (detectEmotion happy_result).
Proof.
  assert (Hsc : scores happy_result (score_of happy_result) EMOTIONS).
  { intros e He. each_label He; reflexivity. }
  split; [exact Hsc|].
  apply (detectEmotion_first_highest happy_result (score_of happy_result) Hsc).
  exists "happy"%string. split; [apply list_elem_of_here | reflexivity].
Defined.

(** ** Classification *)

Lemma try_catch_returns {A} (body : outcome A) (handler : exn -> outcome A) :
  (forall e, returns (handler e)) -> returns (try_catch body handler).
Proof. intros Hh. destruct body as [a|e]; simpl; [by exists a | apply Hh]. Qed.

(** With a ready model and no fault, [classify] answers with the selection
    made on the result of the forward pass. *)
Lemma classify_ready st net eegData features normalizedFeatures result :
  classifier st = Some net -> isReady st = true ->
  extractFeatures eegData = Returned features ->
  normalizeFeatures features default_min default_max = Returned normalizedFeatures ->
  run net normalizedFeatures = Returned result ->
  classify st eegData = Returned (detectEmotion result).
Proof.
  intros Hc Hr He Hn Hrun. unfold classify. rewrite Hc, Hr, He.
  injection Hn as <-. simpl. unfold mbind, outcome_bind. by rewrite Hrun.
Qed.

(** Every label that [classifyEmotion] hands over is the selection made on
    some result of the forward pass. *)
Lemma classifyEmotion_detects emotionClassifier dataBuffer label :
  classifyEmotion emotionClassifier dataBuffer = Some label ->
  exists result, label = detectEmotion result.
Proof.
  unfold classifyEmotion. destruct emotionClassifier as [net|]; [|done].
  case_bool_decide; [done|].
  destruct (run net _) as [result|e]; [|done].
  intros [= <-]. by exists result.
Qed.

(** C6. [classify] never rejects; it answers ["neutral"] while the model is
    missing or not ready, and also when feature extraction or the forward
    pass throws ([normalizeFeatures] has no failing path). *)
Theorem classify_never_throws (st : hook_state) (eegData : list EegChannelData) :
  returns (classify st eegData)
  /\ (classifier st = None \/ isReady st = false ->
      classify st eegData = Returned "neutral"%string)
  /\ (forall net, classifier st = Some net -> isReady st = true ->
        (throws (extractFeatures eegData) ->
           classify st eegData = Returned "neutral"%string)
        /\ (forall features normalizedFeatures,
              extractFeatures eegData = Returned features ->
              normalizeFeatures features default_min default_max
                = Returned normalizedFeatures ->
              throws (run net normalizedFeatures) ->
              classify st eegData = Returned "neutral"%string)
        /\ (forall features, ~ throws (normalizeFeatures features default_min default_max))).
Proof.
  unfold classify. split; [|split].
  - destruct (classifier st) as [net|], (isReady st); try (by eexists).
    apply try_catch_returns. intros e. by eexists.
  - intros [-> | ->]; [done|]. by destruct (classifier st).
  - intros net -> ->. split; [|split].
    + intros [e ->]. reflexivity.
    + intros features normalizedFeatures -> Hn [e He].
      injection Hn as <-. simpl. unfold mbind, outcome_bind.
      by rewrite He.
    + intros features [e He]. discriminate He.
Qed.

Example classify_ready_happy :
  classify {| classifier := Some (constant_net happy_result); isReady := true |}
    two_samples = Returned "happy"%string.
Proof. reflexivity. Qed.

Example classify_run_throws :
  classify {| classifier := Some failing_net; isReady := true |} two_samples
  = Returned "neutral"%string.
Proof. reflexivity. Qed.

Example classify_empty_window :
  classify {| classifier := Some (constant_net happy_result); isReady := true |} []
  = Returned "neutral"%string.
Proof. reflexivity. Qed.

Lemma classify_never_throws_witness :
  classify {| classifier := Some (constant_net happy_result); isReady := false |}
    two_samples = Returned "neutral"%string.
Proof.
  apply (classify_never_throws
           {| classifier := Some (constant_net happy_result); isReady := false |}
           two_samples).
  right. reflexivity.
Defined.

(** ** The selectors *)

Lemma own_lookup_unmapped (table : list (string * string)) (e : string) :
  e ∉ table.*1 -> get_property (list_to_map table) e
                  = default Undefined (Object_prototype !! e).
Proof.
  intros Hn. unfold get_property.
  by rewrite (not_elem_of_list_to_map_1 _ _ Hn).
Qed.

(** The seven labels are mapped by the three tables. *)
Lemma selectors_on_labels :
  (getRecommendedGenre <$> (Some <$> EMOTIONS))
  = Str <$> ["upbeat happy music"; "melancholic piano music";
             "calming ambient music"; "relaxing meditation music";
             "soothing acoustic music"; "inspirational orchestral music";
             "lofi study beats"]%string
  /\ (getEmotionMusicDescription <$> (Some <$> EMOTIONS))
     = Str <$> ["Uplifting tunes to boost your happiness";
                "Comforting melodies for reflection";
                "Calming sounds to ease tension";
                "Peaceful ambient music to maintain tranquility";
                "Soothing melodies to provide reassurance";
                "Inspirational music for this moment of wonder";
                "Pleasant background music for focus"]%string
  /\ (tone <$> (Some <$> EMOTIONS))
     = Str <$> ["enthusiastic and upbeat"; "empathetic and comforting";
                "calm and de-escalating"; "peaceful and measured";
                "reassuring and supportive"; "engaged and attentive";
                "balanced and informative"]%string.
Proof. repeat split; reflexivity. Qed.

(** No emotion yet: the defaults. *)
Lemma selectors_on_null :
  getRecommendedGenre None = Str "lofi study beats"
  /\ getEmotionMusicDescription None = Str "Music to match your mood"
  /\ tone None = Str "neutral and helpful".
Proof. repeat split; reflexivity. Qed.

(** A string that is neither a label nor the name of an inherited property
    falls back to the defaults. *)
Lemma selectors_on_unmapped (e : string) :
  e ∉ EMOTIONS -> ~ inherited e ->
  getRecommendedGenre (Some e) = Str "lofi study beats"
  /\ getEmotionMusicDescription (Some e) = Str "Music to match your mood"
  /\ tone (Some e) = Str "neutral and helpful".
Proof.
  intros Hn Hi. unfold inherited in Hi.
  apply eq_None_not_Some in Hi.
  unfold getRecommendedGenre, getEmotionMusicDescription, tone.
  destruct e as [|c e]; [done|].
  unfold emotionToGenre, descriptions, emotionToTone.
  rewrite !own_lookup_unmapped by exact Hn.
  by rewrite Hi.
Qed.

(** C7, at the inputs where it fails.  For a string that names a property
    inherited from [Object.prototype] the table read is truthy, so the
    default is skipped and the three selectors answer with a built-in
    function instead of a string. *)
Theorem selectors_on_inherited_key :
  getRecommendedGenre (Some "constructor"%string) = Function "Object"
  /\ getEmotionMusicDescription (Some "constructor"%string) = Function "Object"
  /\ tone (Some "constructor"%string) = Function "Object"
  /\ ~ nonempty_string (getRecommendedGenre (Some "constructor"%string))
  /\ "constructor"%string ∉ EMOTIONS.
Proof.
  split; [reflexivity|]. split; [reflexivity|]. split; [reflexivity|].
  split.
  - intros (s & Hs & _). discriminate Hs.
  - compute_done.
Qed.

(** ** Strings *)

Lemma starts_with_spec (search s : string) :
  starts_with search s = true <-> exists post, s = search +:+ post.
Proof.
  revert s. induction search as [|a search IH]; intros s; simpl.
  - split; [intros _; by exists s | done].
  - destruct s as [|b s].
    + split; [done | intros [post H]; discriminate H].
    + rewrite andb_true_iff, bool_decide_eq_true, IH. split.
      * intros [-> [post ->]]. by exists post.
      * intros [post [= -> ->]]. split; [done | by exists post].
Qed.

Lemma includes_spec (s search : string) :
  includes s search = true <-> substring_of search s.
Proof.
  unfold substring_of. induction s as [|c s IH]; simpl.
  - rewrite orb_false_r, starts_with_spec. split.
    + intros [post H]. by exists EmptyString, post.
    + intros ([|c pre] & post & H); [by exists post | discriminate H].
  - rewrite orb_true_iff, starts_with_spec, IH. split.
    + intros [[post H] | (pre & post & ->)].
      * by exists EmptyString, post.
      * by exists (String c pre), post.
    + intros ([|c' pre] & post & H).
      * left. by exists post.
      * right. injection H as -> ->. by exists pre, post.
Qed.

Lemma key_matches_spec (genre key : string) :
  key_matches (toLowerCase genre) key = true <-> matches genre key.
Proof.
  unfold key_matches, matches. by rewrite orb_true_iff, !includes_spec.
Qed.

(** ** The track source *)

Lemma fallbackTracks_NoDup : NoDup (fallbackTracks.*1).
Proof. compute_done. Qed.

Lemma fallbackTracks_at_entry (i : nat) (key : string) (tracks : list YouTubeTrack) :
  fallbackTracks !! i = Some (key, tracks) -> fallbackTracks_at key = tracks.
Proof.
  intros Hi. unfold fallbackTracks_at.
  rewrite (elem_of_list_to_map_1 fallbackTracks key tracks); [done| |].
  - apply fallbackTracks_NoDup.
  - by eapply list_elem_of_lookup_2.
Qed.

Lemma searchYouTubeVideos_remote_throws remote genre :
  throws (remote genre) ->
  searchYouTubeVideos remote genre = Returned (fallback_search genre).
Proof. intros [e He]. unfold searchYouTubeVideos. by rewrite He. Qed.

(** The fallback answers with the entry of the first key that matches. *)
Lemma fallback_search_first (genre : string) (i : nat) (key : string)
    (tracks : list YouTubeTrack) :
  fallbackTracks !! i = Some (key, tracks) ->
  matches genre key ->
  (forall j key' tracks', (j < i)%nat ->
     fallbackTracks !! j = Some (key', tracks') -> ~ matches genre key') ->
  fallback_search genre = tracks.
Proof.
  intros Hi Hm Hfirst. unfold fallback_search.
  destruct (list_find _ _) as [[i' key']|] eqn:Hfind.
  - apply list_find_Some in Hfind as (Hi' & Hm' & Hbefore).
    apply key_matches_spec in Hm'.
    rewrite list_lookup_fmap in Hi'.
    destruct (fallbackTracks !! i') as [[k t]|] eqn:Hentry; [|done].
    injection Hi' as <-.
    destruct (lt_eq_lt_dec i i') as [[Hlt | ->] | Hgt].
    + exfalso. apply (Hbefore i key); [|done|by apply key_matches_spec].
      by rewrite list_lookup_fmap, Hi.
    + rewrite Hi in Hentry. injection Hentry as <- <-.
      by apply (fallbackTracks_at_entry i').
    + exfalso. by apply (Hfirst i' k t).
  - exfalso. apply list_find_None in Hfind.
    rewrite Forall_forall in Hfind. apply (Hfind key).
    + apply list_elem_of_fmap. exists (key, tracks).
      split; [done | by eapply list_elem_of_lookup_2].
    + by apply key_matches_spec.
Qed.

(** Without a matching key the fallback answers with the lofi entry. *)
Lemma fallback_search_default (genre : string) :
  (forall key tracks, (key, tracks) ∈ fallbackTracks -> ~ matches genre key) ->
  fallback_search genre = lofi_tracks.
Proof.
  intros Hnone. unfold fallback_search.
  destruct (list_find _ _) as [[i' key']|] eqn:Hfind; [|reflexivity].
  exfalso. apply list_find_Some in Hfind as (Hi' & Hm' & _).
  apply key_matches_spec in Hm'.
  rewrite list_lookup_fmap in Hi'.
  destruct (fallbackTracks !! i') as [[k t]|] eqn:Hentry; [|done].
  injection Hi' as <-.
  apply (Hnone k t); [by eapply list_elem_of_lookup_2 | done].
Qed.

(** C8. With the remote call failing, ["upbeat happy music"] yields the
    three-item list that starts with [dQw4w9WgXcQ], ["xyz nonsense"] yields
    the lofi list, and in general the folded query selects the first key of
    the table that occurs in it or in which it occurs, the lofi entry being
    the default. *)
Theorem searchYouTubeVideos_fallback
    (remote : string -> outcome (option (list YouTubeTrack))) :
  (forall genre, throws (remote genre)) ->
  searchYouTubeVideos remote "upbeat happy music" = Returned happy_tracks
  /\ length happy_tracks = 3%nat
  /\ id <$> head happy_tracks = Some "dQw4w9WgXcQ"%string
  /\ searchYouTubeVideos remote "xyz nonsense" = Returned lofi_tracks
  /\ fallbackTracks_at "lofi study beats" = lofi_tracks
  /\ forall genre,
       (forall i key tracks,
          fallbackTracks !! i = Some (key, tracks) ->
          matches genre key ->
          (forall j key' tracks', (j < i)%nat ->
             fallbackTracks !! j = Some (key', tracks') -> ~ matches genre key') ->
          searchYouTubeVideos remote genre = Returned tracks)
       /\ ((forall key tracks, (key, tracks) ∈ fallbackTracks -> ~ matches genre key) ->
           searchYouTubeVideos remote genre = Returned lofi_tracks).
Proof.
  intros Hdown.
  split; [by rewrite searchYouTubeVideos_remote_throws|].
  split; [reflexivity|]. split; [reflexivity|].
  split; [by rewrite searchYouTubeVideos_remote_throws|].
  split; [reflexivity|].
  intros genre. rewrite searchYouTubeVideos_remote_throws by done. split.
  - intros i key tracks Hi Hm Hfirst. f_equal. by eapply fallback_search_first.
  - intros Hnone. f_equal. by apply fallback_search_default.
Qed.

Lemma searchYouTubeVideos_fallback_witness :
  (forall genre, throws (remote_down genre))
  /\ searchYouTubeVideos remote_down "upbeat happy music" = Returned happy_tracks
  /\ searchYouTubeVideos remote_down "xyz nonsense" = Returned lofi_tracks.
Proof.
  assert (Hdown : forall genre, throws (remote_down genre)).
  { intros genre. eexists. reflexivity. }
  split; [exact Hdown|].
  destruct (searchYouTubeVideos_fallback remote_down Hdown)
    as (Hhappy & _ & _ & Hlofi & _).
  split; [exact Hhappy | exact Hlofi].
Defined.

Example searchYouTubeVideos_folds_case :
  searchYouTubeVideos remote_down "Some Relaxing Meditation Music, please"
  = Returned (fallbackTracks_at "relaxing meditation music").
Proof. reflexivity. Qed.

Example searchYouTubeVideos_query_inside_key :
  searchYouTubeVideos remote_down "PIANO"
  = Returned (fallbackTracks_at "melancholic piano music").
Proof. reflexivity. Qed.

Example searchYouTubeVideos_remote_answers :
  searchYouTubeVideos (fun _ => Returned (Some lofi_tracks)) "upbeat happy music"
  = Returned lofi_tracks
  /\ searchYouTubeVideos (fun _ => Returned None) "upbeat happy music" = Returned [].
Proof. split; reflexivity. Qed.

(** C10. With the remote call failing, the empty query yields the
    ["upbeat happy music"] list, the first entry of the table, and not the
    lofi default: the empty string occurs in every key. *)
Theorem searchYouTubeVideos_empty_query
    (remote : string -> outcome (option (list YouTubeTrack))) :
  throws (remote ""%string) ->
  searchYouTubeVideos remote "" = Returned happy_tracks
  /\ fallbackTracks !! 0%nat = Some ("upbeat happy music"%string, happy_tracks)
  /\ happy_tracks <> lofi_tracks
  /\ forall key, key ∈ fallbackTracks.*1 -> includes key (toLowerCase "") = true.
Proof.
  intros Hdown. rewrite searchYouTubeVideos_remote_throws by done.
  split; [reflexivity|]. split; [reflexivity|]. split; [discriminate|].
  intros key Hkey. apply includes_spec. by exists EmptyString, key.
Qed.

Lemma searchYouTubeVideos_empty_query_witness :
  throws (remote_down ""%string)
  /\ searchYouTubeVideos remote_down "" = Returned happy_tracks.
Proof.
  assert (Hdown : throws (remote_down ""%string)) by (eexists; reflexivity).
  split; [exact Hdown|].
  apply (searchYouTubeVideos_empty_query remote_down Hdown).
Defined.

(** * Further facts *)

(** ** The signal generators *)

Lemma unit_draws_each (rnd : draws) :
  unit_draws rnd ->
  unit_draw (draw1 rnd) /\ unit_draw (draw2 rnd) /\ unit_draw (draw3 rnd)
  /\ unit_draw (draw4 rnd) /\ unit_draw (draw5 rnd) /\ unit_draw (draw6 rnd)
  /\ unit_draw (draw7 rnd) /\ unit_draw (draw8 rnd).
Proof.
  unfold unit_draws, draws_list. intros H.
  repeat (apply Forall_cons_1 in H as [? H]). repeat (split; [assumption|]). assumption.
Qed.

Lemma uniform_reading_range (r : Qc) :
  unit_draw r ->
  exists q, uniform_reading r = Fin q /\ (Qc_of_Z (-50) <= q)%Qc /\ (q < Qc_of_Z 50)%Qc.
Proof.
  intros [H0 H1]. eexists. split; [reflexivity|]. split; Qc_lra.
Qed.

Lemma randomize_range (base : Z) (r : Qc) :
  unit_draw r ->
  exists q, randomize base r = Fin q
            /\ (Qc_of_Z (base - 5) <= q)%Qc /\ (q < Qc_of_Z (base + 5))%Qc.
Proof.
  intros [H0 H1]. eexists. split; [reflexivity|].
  rewrite Z2Qc_inj_sub, Z2Qc_inj_add. split; Qc_lra.
Qed.

(** X1. Fed with values of [Math.random()], [generateSimulatedEegData] puts
    every channel in [-50, 50). *)
Theorem generateSimulatedEegData_range (rnd : draws) (now : number) :
  unit_draws rnd ->
  Forall (fun x => exists q, x = Fin q
                             /\ (Qc_of_Z (-50) <= q)%Qc /\ (q < Qc_of_Z 50)%Qc)
         (readings (generateSimulatedEegData rnd now)).
Proof.
  intros Hu. destruct (unit_draws_each rnd Hu) as (?&?&?&?&?&?&?&?).
  unfold readings, generateSimulatedEegData. simpl.
  repeat (apply Forall_cons; split; [by apply uniform_reading_range|]).
  apply Forall_nil_2.
Qed.

Lemma middle_draws_unit : unit_draws middle_draws.
Proof. concrete_draws. Qed.

Lemma generateSimulatedEegData_range_witness :
  unit_draws middle_draws
  /\ Forall (fun x => exists q, x = Fin q
                                /\ (Qc_of_Z (-50) <= q)%Qc /\ (q < Qc_of_Z 50)%Qc)
            (readings (generateSimulatedEegData middle_draws (of_Z 0))).
Proof.
  split; [concrete_draws|].
  apply generateSimulatedEegData_range. concrete_draws.
Defined.

Lemma pattern_range (b1 b2 b3 b4 b5 b6 b7 b8 : Z) (rnd : draws) (now : number) :
  Forall (fun b => 10 <= b <= 45) [b1; b2; b3; b4; b5; b6; b7; b8] ->
  unit_draws rnd ->
  Forall (fun x => exists q, x = Fin q
                             /\ (Qc_of_Z 5 <= q)%Qc /\ (q < Qc_of_Z 50)%Qc)
         (readings (pattern b1 b2 b3 b4 b5 b6 b7 b8 rnd now)).
Proof.
  intros Hb Hu. destruct (unit_draws_each rnd Hu) as (?&?&?&?&?&?&?&?).
  repeat (apply Forall_cons_1 in Hb as [? Hb]).
  assert (Hone : forall b r, 10 <= b <= 45 -> unit_draw r ->
            exists q, randomize b r = Fin q
                      /\ (Qc_of_Z 5 <= q)%Qc /\ (q < Qc_of_Z 50)%Qc).
  { intros b r Hbr Hr. destruct (randomize_range b r Hr) as (q & -> & Hlo & Hhi).
    exists q. split; [done|]. split.
    - eapply Qcle_trans; [|exact Hlo]. apply (proj1 (Z2Qc_inj_le _ _)). lia.
    - eapply Qclt_le_trans; [exact Hhi|]. apply (proj1 (Z2Qc_inj_le _ _)). lia. }
  unfold readings, pattern. simpl.
  repeat (apply Forall_cons; split; [by apply Hone|]).
  apply Forall_nil_2.
Qed.



(** X3. The jitter never reverses the asymmetry the patterns are built on:
    in a happy pattern the left frontal channels [eeg1], [eeg2] exceed
    [eeg5] to [eeg8]; in a sad pattern the right frontal channels [eeg5],
    [eeg6] exceed [eeg1], [eeg2]. *)
Theorem generateEmotionPattern_asymmetry (rnd : draws) (now : number) :
  unit_draws rnd ->
  (let s := generateEmotionPattern "happy" rnd now in
   Forall (fun left =>
             Forall (fun right => JsNumber.gtb left right = true)
                    [eeg5 s; eeg6 s; eeg7 s; eeg8 s])
          [eeg1 s; eeg2 s])
  /\ (let s := generateEmotionPattern "sad" rnd now in
      Forall (fun right =>
                Forall (fun left => JsNumber.gtb right left = true)
                       [eeg1 s; eeg2 s])
             [eeg5 s; eeg6 s]).
Proof.
  intros Hu. destruct (unit_draws_each rnd Hu) as ([??]&[??]&[??]&[??]&[??]&[??]&[??]&[??]).
  split; cbv zeta; simpl;
    repeat (apply Forall_cons; split); try apply Forall_nil_2;
    apply bool_decide_eq_true_2; Qc_lra.
Qed.

Lemma generateEmotionPattern_asymmetry_witness :
  unit_draws middle_draws
  /\ JsNumber.gtb (eeg1 (generateEmotionPattern "happy" middle_draws (of_Z 0)))
                  (eeg5 (generateEmotionPattern "happy" middle_draws (of_Z 0))) = true.
Proof.
  split; [concrete_draws|].
  destruct (generateEmotionPattern_asymmetry middle_draws (of_Z 0)) as [Hh _];
    [concrete_draws|].
  cbv zeta in Hh. apply Forall_cons_1 in Hh as [Hh _].
  apply Forall_cons_1 in Hh as [Hh _]. exact Hh.
Defined.

(** ** Averages of bounded readings *)

Lemma between_Fin (low high : Qc) (x : number) :
  between low high x = true ->
  exists q, x = Fin q /\ (low <= q)%Qc /\ (q <= high)%Qc.
Proof.
  destruct x as [q| | |]; try done. simpl.
  rewrite andb_true_iff, !bool_decide_eq_true. intros [??]. by exists q.
Qed.

Lemma Qc_of_nat_succ (n : nat) :
  Qc_of_Z (Z.of_nat (S n)) = (Qc_of_Z (Z.of_nat n) + 1)%Qc.
Proof. by rewrite Nat2Z.inj_succ, <- Z.add_1_r, Z2Qc_inj_add, Z2Qc_inj_1. Qed.

Lemma foldl_add_between (low high : Qc) (xs : list number) (a : Qc) :
  Forall (fun x => between low high x = true) xs ->
  exists s,
    foldl JsNumber.add (Fin a) xs = Fin s
    /\ (a + Qc_of_Z (Z.of_nat (length xs)) * low <= s)%Qc
    /\ (s <= a + Qc_of_Z (Z.of_nat (length xs)) * high)%Qc.
Proof.
  revert a. induction xs as [|x xs IH]; intros a Hall.
  - exists a. split; [done|].
    change (Z.of_nat (length (@nil number))) with 0. rewrite Z2Qc_inj_0.
    split; Qc_lra.
  - apply Forall_cons_1 in Hall as [Hx Hall].
    destruct (between_Fin _ _ _ Hx) as (q & -> & Hlo & Hhi).
    destruct (IH (a + q)%Qc Hall) as (s & Hs & Hslo & Hshi).
    exists s. split; [exact Hs|].
    change (length (Fin q :: xs)) with (S (length xs)).
    rewrite Qc_of_nat_succ.
    set (n := Qc_of_Z (Z.of_nat (length xs))) in *.
    split; Qc_lra.
Qed.

Lemma mean_between (low high : Qc) (xs : list number) :
  xs <> [] ->
  Forall (fun x => between low high x = true) xs ->
  exists m, mean xs = Fin m /\ (low <= m)%Qc /\ (m <= high)%Qc.
Proof.
  intros Hne Hall. unfold mean, sum, of_nat, of_Z.
  destruct (foldl_add_between low high xs (Qc_of_Z 0) Hall) as (s & -> & Hlo & Hhi).
  rewrite Z2Qc_inj_0 in Hlo, Hhi.
  set (n := Qc_of_Z (Z.of_nat (length xs))) in *.
  assert (Hn : (0 < n)%Qc).
  { apply Qc_of_Z_pos. destruct xs; [done | simpl; lia]. }
  assert (Hnz : n <> 0%Qc) by (intros E; rewrite E in Hn; Qc_order).
  simpl. rewrite decide_False by done.
  exists (s / n)%Qc. split; [done|].
  assert (Hs : (s / n * n = s)%Qc) by (by field).
  split; apply (Qcmult_le_mono_pos_r _ _ n Hn); rewrite Hs; Qc_lra.
Qed.

Lemma clampQ_id (x : Qc) : (0 <= x)%Qc -> (x <= 1)%Qc -> clampQ x = x.
Proof. intros. unfold clampQ. repeat case_decide; Qc_order. Qed.

(** On a reading inside the default range the clamp of [normalizeFeatures]
    does nothing, and the result is the rescaling of [classifyEmotion]. *)
Lemma normalize_channel_default (m : Qc) :
  (Qc_of_Z (-50) <= m)%Qc -> (m <= Qc_of_Z 50)%Qc ->
  clamp01 ((Fin m - default_min) / (default_max - default_min))%num
  = ((Fin m + of_Z 50) / of_Z 100)%num.
Proof.
  intros Hlo Hhi. unfold default_min, default_max, of_Z.
  rewrite (normalize_channel (Qc_of_Z (-50)) (Qc_of_Z 50)) by done.
  replace (- Qc_of_Z (-50))%Qc with (Qc_of_Z 50) by (by apply Qc_is_canon).
  replace (Qc_of_Z 50 + Qc_of_Z 50)%Qc with (Qc_of_Z 100) by (by apply Qc_is_canon).
  assert (Hn : (0 < Qc_of_Z 100)%Qc) by done.
  assert (Hnz : Qc_of_Z 100 <> 0%Qc) by done.
  simpl. f_equal.
  set (y := ((m + Qc_of_Z 50) / Qc_of_Z 100)%Qc).
  assert (Hy : (y * Qc_of_Z 100 = m + Qc_of_Z 50)%Qc) by (unfold y; by field).
  apply clampQ_id; apply (Qcmult_le_mono_pos_r _ _ (Qc_of_Z 100) Hn);
    rewrite Hy; Qc_lra.
Qed.

(** ** The two classification paths *)

Lemma mbind_Returned {A B} (k : A -> outcome B) (a : A) :
  mbind k (Returned a) = k a.
Proof. reflexivity. Qed.

Lemma accumulated_means (eegData : list EegChannelData) :
  eegData <> [] ->
  foldl (accumulate (of_nat (length eegData))) zero_features eegData
  = obj8 (mean (eeg1 <$> eegData)) (mean (eeg2 <$> eegData))
         (mean (eeg3 <$> eegData)) (mean (eeg4 <$> eegData))
         (mean (eeg5 <$> eegData)) (mean (eeg6 <$> eegData))
         (mean (eeg7 <$> eegData)) (mean (eeg8 <$> eegData)).
Proof.
  intros Hne.
  change zero_features with
    (obj8 (of_Z 0) (of_Z 0) (of_Z 0) (of_Z 0) (of_Z 0) (of_Z 0) (of_Z 0) (of_Z 0)).
  rewrite foldl_accumulate_obj8. cbv zeta.
  assert (Hm : forall p : EegChannelData -> number,
    foldl (fun a v => a + v / of_nat (length eegData))%num (of_Z 0) (p <$> eegData)
    = mean (p <$> eegData)).
  { intros p. rewrite <- (length_fmap p eegData).
    apply foldl_div_mean. by destruct eegData. }
  by rewrite !Hm.
Qed.

Lemma sample_between_channels (low high : Qc) (eegData : list EegChannelData) :
  Forall (fun s => sample_between low high s = true) eegData ->
  forall key proj, (key, proj) ∈ channels ->
    Forall (fun x => between low high x = true) (proj <$> eegData).
Proof.
  intros Hall key proj Hin. apply Forall_fmap.
  eapply Forall_impl; [exact Hall|]. intros s Hs. simpl.
  unfold sample_between, readings in Hs. simpl in Hs.
  repeat (apply andb_true_iff in Hs as [? Hs]).
  unfold channels in Hin. rewrite !elem_of_cons, elem_of_nil in Hin.
  repeat (destruct Hin as [[= -> ->] | Hin]; [assumption|]). done.
Qed.



(** X5. Whatever the network answers, the label is one of the seven of the
    enumeration: [classify] always resolves to one of them, and
    [classifyEmotion] never reports anything else. *)
Theorem classification_labels
    (st : hook_state) (emotionClassifier : option NeuralNetwork)
    (eegData : list EegChannelData) :
  (exists label, classify st eegData = Returned label /\ label ∈ EMOTIONS)
  /\ (forall label, classifyEmotion emotionClassifier eegData = Some label ->
        label ∈ EMOTIONS).
Proof.
  assert (Hneutral : "neutral"%string ∈ EMOTIONS) by (unfold EMOTIONS; set_solver).
  split.
  - unfold classify.
    destruct (classifier st) as [net|], (isReady st); try (by eexists).
    destruct (extractFeatures eegData) as [features|e]; [|by eexists].
    rewrite mbind_Returned. unfold normalizeFeatures. rewrite mbind_Returned.
    destruct (run net _) as [result|e]; [|by eexists].
    rewrite mbind_Returned. eexists. split; [reflexivity|].
    apply detectEmotion_label.
  - intros label Hl. destruct (classifyEmotion_detects _ _ _ Hl) as [result ->].
    apply detectEmotion_label.
Qed.

(** ** Normalisation: order and equal bounds *)

Lemma clampQ_mono (x y : Qc) : (x <= y)%Qc -> (clampQ x <= clampQ y)%Qc.
Proof. intros. unfold clampQ. repeat case_decide; Qc_order. Qed.

Lemma normalize_channel_any (low high v : Qc) :
  high <> low ->
  clamp01 ((Fin v - Fin low) / (Fin high - Fin low))%num
  = Fin (clampQ ((v - low) / (high - low))).
Proof.
  intros Hne. unfold JsNumber.sub. simpl.
  rewrite decide_False.
  - apply clamp01_Fin.
  - intros E. apply Hne. apply (Qcplus_inj_l (- low)%Qc).
    simpl. by rewrite E, Qcplus_opp_r.
Qed.



(** X7. With equal bounds the rescaling divides by zero and nothing is
    thrown: a reading on the bound becomes [NaN], a reading above it 1, a
    reading below it 0. *)
Theorem normalizeFeatures_equal_bounds_cases
    (features : gmap string Qc) (bound : Qc) (key : string) (v : Qc) :
  features !! key = Some v ->
  exists normalized,
    normalizeFeatures (Fin <$> features) (Fin bound) (Fin bound) = Returned normalized
    /\ normalized !! key
       = Some (if decide (v = bound) then NaN
               else if decide (bound < v)%Qc then of_Z 1 else of_Z 0).
Proof.
  intros Hv. eexists. split; [reflexivity|].
  rewrite !lookup_fmap, Hv. cbv [fmap option_fmap option_map]. f_equal.
  unfold JsNumber.sub. simpl.
  rewrite (decide_True (P := (bound + - bound)%Qc = 0%Qc)) by apply Qcplus_opp_r.
  assert (Heq : (v + - bound)%Qc = 0%Qc <-> v = bound).
  { split; [|intros ->; apply Qcplus_opp_r].
    intros E. apply (Qcplus_inj_l (- bound)%Qc). simpl. by rewrite E, Qcplus_opp_r. }
  assert (Hlt : (0 < v + - bound)%Qc <-> (bound < v)%Qc)
    by (symmetry; apply Qclt_minus_iff).
  destruct (decide (v = bound)) as [->|Hne].
  - by rewrite decide_True by apply Qcplus_opp_r.
  - rewrite (decide_False (P := (v + - bound)%Qc = 0%Qc)) by (by rewrite Heq).
    destruct (decide (bound < v)%Qc) as [Hb|Hb].
    + by rewrite decide_True by (by apply Hlt).
    + by rewrite decide_False by (by rewrite Hlt).
Qed.

Lemma normalizeFeatures_equal_bounds_cases_witness :
  finite_features !! "eeg1"%string = Some (Qc_of_Z 60)
  /\ exists normalized,
       normalizeFeatures (Fin <$> finite_features) (of_Z 60) (of_Z 60)
         = Returned normalized
       /\ normalized !! "eeg1"%string = Some NaN.
Proof.
  split; [reflexivity|].
  destruct (normalizeFeatures_equal_bounds_cases finite_features (Qc_of_Z 60)
              "eeg1" (Qc_of_Z 60) eq_refl) as (normalized & Hret & Hkey).
  exists normalized. split; [exact Hret|]. exact Hkey.
Defined.

(** ** The display of the monitor *)

Lemma slice_last_slice_last {A} (n m : nat) (l : list A) :
  (n <= m)%nat -> slice_last n (slice_last m l) = slice_last n l.
Proof.
  intros Hnm. unfold slice_last. rewrite length_drop, drop_drop. f_equal. lia.
Qed.

Lemma display_after_slice (samples : list EegChannelData) :
  display_after samples = slice_last 10 samples.
Proof.
  induction samples as [|x samples IH] using rev_ind; [done|].
  unfold display_after in *. rewrite foldl_app. simpl. rewrite IH.
  unfold show_sample. apply slice_last_app. lia.
Qed.

(** X8. The samples on display are always the last ten of the sample buffer
    (all of it while it holds fewer), in the same order. *)
Theorem display_is_buffer_tail (samples : list EegChannelData) :
  display_after samples = slice_last 10 (buffer_after samples)
  /\ display_after samples = drop (length samples - 10) samples
  /\ length (display_after samples) = Nat.min (length samples) 10.
Proof.
  rewrite display_after_slice, buffer_after_slice.
  split; [by rewrite slice_last_slice_last by lia|].
  split; [done|]. unfold slice_last. rewrite length_drop. lia.
Qed.

(** X9. With a single sample on display the horizontal coordinate of its point
    is [NaN] (zero times 100/0); from two samples on, the first point is at 0
    and every point has a finite coordinate. *)
Theorem point_x_single_sample :
  point_x 0 1 = NaN
  /\ forall len i, (2 <= len)%nat ->
       point_x 0 len = Fin 0%Qc /\ exists q, point_x i len = Fin q.
Proof.
  split; [reflexivity|].
  intros len i Hlen.
  assert (Hnz : (Qc_of_Z (Z.of_nat len) + - Qc_of_Z 1)%Qc <> 0%Qc).
  { rewrite <- Z2Qc_inj_opp, <- Z2Qc_inj_add, <- Z2Qc_inj_0.
    intros E%Z2Qc_inj. lia. }
  assert (Hx : forall j, point_x j len
    = Fin (Qc_of_Z (Z.of_nat j)
           * (Qc_of_Z 100 / (Qc_of_Z (Z.of_nat len) + - Qc_of_Z 1)))%Qc).
  { intros j. unfold point_x, of_nat, of_Z, JsNumber.sub.
    cbn [neg JsNumber.add JsNumber.div]. by rewrite decide_False by done. }
  rewrite !Hx. split; [|by eexists].
  change (Z.of_nat 0) with 0. rewrite Z2Qc_inj_0. f_equal. apply Qcmult_0_l.
Qed.

(** ** The chat service *)

Lemma string_or_nonempty (s : option string) (d : string) :
  d <> ""%string -> string_or s d <> ""%string.
Proof. intros Hd. by destruct s as [[|c s]|]. Qed.

(** X10. [sendMessageToLLM] always answers with a non-empty text; the [error]
    field is absent exactly when a key was given and the request was
    answered, and when present it is a non-empty message. *)
Theorem sendMessageToLLM_response
    (functionSource : string -> string) (post : list Message -> post_result)
    (messages : list Message) (currentEmotion : option string) (apiKey : string) :
  let response := sendMessageToLLM functionSource post messages currentEmotion apiKey in
  text response <> ""%string
  /\ (error response = None <->
      apiKey <> ""%string
      /\ exists reply,
           post (system_message functionSource currentEmotion :: messages)
           = Replied reply)
  /\ (forall e, error response = Some e -> e <> ""%string).
Proof.
  unfold sendMessageToLLM. destruct (String.eqb_spec apiKey "") as [->|Hkey].
  - split; [done|]. split.
    + split; [done | by intros [? _]].
    + by intros e [= <-].
  - destruct (post _) as [reply|api_message message]; simpl.
    + split; [by apply string_or_nonempty|]. split.
      * split; [intros _; split; [done | by exists reply] | done].
      * done.
    + split; [done|]. split.
      * split; [done | by intros [_ [? ?]]].
      * intros e [= <-]. by do 2 apply string_or_nonempty.
Qed.

Lemma strip_trailing_quote_snoc (s : string) :
  strip_trailing_quote (s +:+ String quote EmptyString) = s.
Proof.
  induction s as [|c s IH]; [reflexivity|].
  simpl in *. rewrite IH. by destruct s.
Qed.

Lemma clean_genre_quoted (s : string) : clean_genre (quoted s) = trim s.
Proof.
  unfold clean_genre, quoted, strip_leading_quote.
  rewrite bool_decide_eq_true_2 by done.
  by rewrite strip_trailing_quote_snoc.
Qed.

(** X11. Without a key, and when the request fails, [getMusicRecommendation]
    answers with the sentence that [sendMessageToLLM] put in [text], not with
    a genre: the fallback table is not consulted. *)
Theorem getMusicRecommendation_error_text
    (functionSource : string -> string) (post : list Message -> post_result)
    (emotion : string) (apiKey : string) :
  emotion <> ""%string ->
  (apiKey = ""%string ->
     getMusicRecommendation functionSource post (Some emotion) apiKey
     = Str "API key is missing. Please set your NEXT_PUBLIC_OPENROUTER_API_KEY in .env.local")
  /\ (apiKey <> ""%string ->
      (exists api_message message,
         post [system_message functionSource (Some "neutral"%string);
               genre_question emotion] = Failed api_message message) ->
      getMusicRecommendation functionSource post (Some emotion) apiKey
      = Str "Sorry, I encountered an error. Please try again later.").
Proof.
  intros He. destruct emotion as [|c emotion]; [done|].
  unfold getMusicRecommendation, sendMessageToLLM. split.
  - intros ->. reflexivity.
  - intros Hkey (api_message & message & Hpost).
    destruct (String.eqb_spec apiKey "") as [->|_]; [done|].
    rewrite Hpost. reflexivity.
Qed.

Lemma getMusicRecommendation_error_text_witness :
  "sad"%string <> ""%string
  /\ getMusicRecommendation (fun _ => ""%string) post_down (Some "sad"%string) "key"
     = Str "Sorry, I encountered an error. Please try again later.".
Proof.
  split; [discriminate|].
  apply (getMusicRecommendation_error_text (fun _ => ""%string) post_down "sad" "key");
    [discriminate | discriminate |].
  do 2 eexists. reflexivity.
Defined.

(** X12. A genre answered between double quotes comes back without them. *)
Theorem getMusicRecommendation_unquotes
    (functionSource : string -> string) (post : list Message -> post_result)
    (emotion apiKey genre : string) :
  emotion <> ""%string -> apiKey <> ""%string ->
  genre <> ""%string -> trim genre = genre ->
  post [system_message functionSource (Some "neutral"%string);
        genre_question emotion] = Replied (Some (quoted genre)) ->
  getMusicRecommendation functionSource post (Some emotion) apiKey = Str genre.
Proof.
  intros He Hkey Hg Htrim Hpost. destruct emotion as [|c emotion]; [done|].
  unfold getMusicRecommendation, sendMessageToLLM.
  destruct (String.eqb_spec apiKey "") as [->|_]; [done|].
  rewrite Hpost. cbn [text string_or quoted].
  change (String quote (genre +:+ String quote "")) with (quoted genre).
  rewrite clean_genre_quoted, Htrim. by destruct genre.
Qed.

Lemma getMusicRecommendation_unquotes_witness :
  getMusicRecommendation (fun _ => ""%string) (post_reply (quoted "smooth jazz"))
    (Some "calm"%string) "key" = Str "smooth jazz".
Proof.
  apply (getMusicRecommendation_unquotes (fun _ => ""%string)
           (post_reply (quoted "smooth jazz")) "calm" "key" "smooth jazz");
    try discriminate; reflexivity.
Defined.

(** X13. The fallback table of the chat service and the table of the music
    service agree: [emotionToGenre] answers what [getRecommendedGenre] answers
    for every string, and so does [getMusicRecommendation] whenever the
    cleaned reply is empty. *)
Theorem emotionToGenre_agrees
    (functionSource : string -> string) (post : list Message -> post_result)
    (emotion apiKey : string) :
  emotionToGenre_fallback emotion = getRecommendedGenre (Some emotion)
  /\ (clean_genre
        (text (sendMessageToLLM functionSource post [genre_question emotion]
                 (Some "neutral"%string) apiKey)) = ""%string ->
      getMusicRecommendation functionSource post (Some emotion) apiKey
      = getRecommendedGenre (Some emotion)).
Proof.
  assert (Hagree : emotionToGenre_fallback emotion = getRecommendedGenre (Some emotion)).
  { destruct emotion as [|c emotion]; reflexivity. }
  split; [exact Hagree|].
  intros Hclean. unfold getMusicRecommendation.
  destruct emotion as [|c emotion]; [reflexivity|].
  by rewrite Hclean, Hagree.
Qed.

Lemma emotionToGenre_agrees_witness :
  getMusicRecommendation (fun _ => ""%string) (post_reply "  ")
    (Some "sad"%string) "key" = getRecommendedGenre (Some "sad"%string).
Proof.
  apply (emotionToGenre_agrees (fun _ => ""%string) (post_reply "  ") "sad" "key").
  reflexivity.
Defined.

(** ** The search route *)

Lemma mockResults_keys : Api.mockResults.*1 = fallbackTracks.*1.
Proof. reflexivity. Qed.

Lemma mockResults_at_keys (key : string) :
  key ∈ fallbackTracks.*1 ->
  exists found,
    Api.mockResults_at key = Some found
    /\ length found = 3%nat
    /\ Forall (fun t => Api.thumbnail t
                        = "https://i.ytimg.com/vi/" +:+ Api.id t +:+ "/hqdefault.jpg")
              found
    /\ id_title <$> fallbackTracks_at key
       = (fun t => (Api.id t, Api.title t)) <$> found.
Proof.
  intros Hkey. simpl in Hkey. rewrite !elem_of_cons, elem_of_nil in Hkey.
  repeat (destruct Hkey as [-> | Hkey];
          [eexists; split; [reflexivity|]; split; [reflexivity|];
           split; [by repeat constructor | reflexivity]|]).
  done.
Qed.

Lemma best_match_key (queryString : string) :
  match list_find (fun key => key_matches queryString key = true)
          (fallbackTracks.*1) with
  | Some (_, key) => key
  | None => "lofi study beats"%string
  end ∈ fallbackTracks.*1.
Proof.
  destruct (list_find _ _) as [[i key]|] eqn:Hfind.
  - apply list_find_Some in Hfind as (Hi & _ & _). by eapply list_elem_of_lookup_2.
  - simpl. set_solver.
Qed.

(** X14. The route answers 200 exactly to a GET with a non-empty query, and
    then with three tracks, each with the thumbnail address of its id, and no
    error; any other request gets 405 (not a GET) or 400 (no query) with an
    empty track list and an error message. *)
Theorem handler_status (method : string) (query : Api.query_value) :
  let response := Api.handler method query in
  (Api.status response = 200%nat <->
     method = "GET"%string /\ Api.not_query query = false)
  /\ (Api.status response = 200%nat ->
      length (Api.tracks (Api.body response)) = 3%nat
      /\ Api.error (Api.body response) = None
      /\ Forall (fun t => Api.thumbnail t
                          = "https://i.ytimg.com/vi/" +:+ Api.id t +:+ "/hqdefault.jpg")
                (Api.tracks (Api.body response)))
  /\ (Api.status response <> 200%nat ->
      Api.tracks (Api.body response) = []
      /\ is_Some (Api.error (Api.body response))
      /\ Api.status response = (if String.eqb method "GET" then 400 else 405)%nat).
Proof.
  unfold Api.handler.
  destruct (String.eqb_spec method "GET") as [->|Hm]; cbn [negb].
  - destruct (Api.not_query query) eqn:Hq;
      cbn [Api.status Api.body Api.tracks Api.error].
    + split; [split; [done | by intros [_ ?]]|]. split; [done|]. by eauto.
    + split; [done|]. split; [|done]. intros _.
      rewrite mockResults_keys.
      destruct (mockResults_at_keys _ (best_match_key
                  (toLowerCase (Api.query_toString query))))
        as (found & -> & Hlen & Hthumb & _).
      done.
  - cbn [Api.status Api.body Api.tracks Api.error].
    split; [split; [done | by intros [? _]]|]. split; [done|]. by eauto.
Qed.

Lemma handler_tracks_fallback (genre : string) :
  genre <> ""%string ->
  (fun t => (Api.id t, Api.title t))
    <$> Api.tracks (Api.body (Api.handler "GET" (Api.Single genre)))
  = id_title <$> fallback_search genre.
Proof.
  intros Hg. destruct genre as [|c genre]; [done|].
  unfold Api.handler, fallback_search.
  cbn [String.eqb Ascii.eqb Bool.eqb negb Api.not_query Api.query_toString
       Api.tracks Api.body].
  rewrite mockResults_keys.
  destruct (mockResults_at_keys _ (best_match_key (toLowerCase (String c genre))))
    as (found & Hfound & _ & _ & Hsame).
  destruct (list_find _ _) as [[i key]|]; rewrite Hfound; by rewrite Hsame.
Qed.

(** X15. For every non-empty query the route and the fallback of
    [searchYouTubeVideos] select the same tracks: same ids and titles, in the
    same order. *)
Theorem handler_matches_fallback (genre : string) :
  genre <> ""%string ->
  (fun t => (Api.id t, Api.title t))
    <$> Api.tracks (Api.body (Api.handler "GET" (Api.Single genre)))
  = id_title <$> fallback_search genre.
Proof. apply handler_tracks_fallback. Qed.

Lemma handler_matches_fallback_witness :
  "Calming Ambient Music"%string <> ""%string
  /\ (fun t => (Api.id t, Api.title t))
       <$> Api.tracks (Api.body (Api.handler "GET" (Api.Single "Calming Ambient Music")))
     = id_title <$> fallback_search "Calming Ambient Music".
Proof.
  split; [discriminate|].
  apply (handler_matches_fallback "Calming Ambient Music"). discriminate.
Defined.

(** X16. When the request of [searchYouTubeVideos] reaches the route, the
    tracks it returns have the ids and titles of the fallback for the same
    genre: the player lists the same tracks whether the route answers or the
    request fails. *)
Theorem searchYouTubeVideos_same_tracks
    (remote : string -> outcome (option (list YouTubeTrack))) (genre : string) :
  remote genre = deliver (Api.handler "GET" (Api.Single genre)) ->
  exists tracks,
    searchYouTubeVideos remote genre = Returned tracks
    /\ id_title <$> tracks = id_title <$> fallback_search genre.
Proof.
  intros Hremote. destruct genre as [|c genre].
  - exists (fallback_search ""). split; [|done].
    apply searchYouTubeVideos_remote_throws. rewrite Hremote. by eexists.
  - set (answer := Api.handler "GET" (Api.Single (String c genre))) in *.
    assert (Hdeliver : deliver answer
      = Returned (Some ((fun t => {| id := Api.id t; title := Api.title t;
                                     thumbnail := Some (Api.thumbnail t) |})
                        <$> Api.tracks (Api.body answer)))) by reflexivity.
    unfold searchYouTubeVideos. rewrite Hremote, Hdeliver, mbind_Returned.
    eexists. split; [reflexivity|].
    rewrite <- handler_tracks_fallback by done. fold answer.
    cbv [default from_option Datatypes.id]. by rewrite <- list_fmap_compose.
Qed.

Lemma searchYouTubeVideos_same_tracks_witness :
  exists tracks,
    searchYouTubeVideos (fun genre => deliver (Api.handler "GET" (Api.Single genre)))
      "lofi" = Returned tracks
    /\ id_title <$> tracks = id_title <$> fallback_search "lofi".
Proof.
  apply (searchYouTubeVideos_same_tracks
           (fun genre => deliver (Api.handler "GET" (Api.Single genre))) "lofi").
  reflexivity.
Defined.

(** X17. Whatever the query, the fallback answers with one of the seven lists
    of the table: three tracks with pairwise distinct ids. *)
Theorem fallback_search_entry (genre : string) :
  (exists key, (key, fallback_search genre) ∈ fallbackTracks)
  /\ length (fallback_search genre) = 3%nat
  /\ NoDup (id <$> fallback_search genre).
Proof.
  assert (Hkey : exists key, key ∈ fallbackTracks.*1
                             /\ fallback_search genre = fallbackTracks_at key).
  { unfold fallback_search. eexists.
    split; [apply (best_match_key (toLowerCase genre))|].
    by destruct (list_find _ _) as [[i key]|]. }
  destruct Hkey as (key & Hkey & ->).
  simpl in Hkey. rewrite !elem_of_cons, elem_of_nil in Hkey.
  repeat (destruct Hkey as [-> | Hkey];
          [split; [match goal with
                   | |- context [fallbackTracks_at ?k] => exists k
                   end;
                   apply (elem_of_list_to_map_2 (M := gmap string) fallbackTracks);
                   reflexivity|];
           split; [reflexivity | compute_done]|]).
  done.
Qed.

(** ** The music player *)

Lemma findIndex_id_lookup (tracks : list YouTubeTrack) (i : nat) (t : YouTubeTrack) :
  NoDup (id <$> tracks) -> tracks !! i = Some t ->
  findIndex_id tracks (id t) = Some i.
Proof.
  intros Hnd Hi. unfold findIndex_id.
  destruct (list_find _ _) as [[j y]|] eqn:Hfind; simpl.
  - apply list_find_Some in Hfind as (Hj & Hid & _). f_equal.
    apply (NoDup_lookup (id <$> tracks) j i (id t) Hnd).
    + by rewrite list_lookup_fmap, Hj, <- Hid.
    + by rewrite list_lookup_fmap, Hi.
  - exfalso. apply list_find_None in Hfind. rewrite Forall_forall in Hfind.
    apply (Hfind t); [by eapply list_elem_of_lookup_2 | done].
Qed.

Lemma after_next_lookup (tracks : list YouTubeTrack) (i : nat) (t : YouTubeTrack) :
  NoDup (id <$> tracks) -> tracks !! i = Some t ->
  tracks !! ((i + 1) mod length tracks)%nat = Some (after_next tracks t).
Proof.
  intros Hnd Hi. pose proof (lookup_lt_Some _ _ _ Hi) as Hlt.
  unfold after_next, handleNext, nextIndex.
  rewrite bool_decide_eq_false_2 by lia.
  rewrite (findIndex_id_lookup tracks i t Hnd Hi).
  destruct (lookup_lt_is_Some_2 tracks ((i + 1) mod length tracks)%nat) as [t' Ht'].
  { apply Nat.mod_upper_bound. lia. }
  by rewrite Ht'.
Qed.

Lemma after_next_iter (tracks : list YouTubeTrack) (i k : nat) (t : YouTubeTrack) :
  NoDup (id <$> tracks) -> tracks !! i = Some t ->
  tracks !! ((i + k) mod length tracks)%nat
  = Some (Nat.iter k (after_next tracks) t).
Proof.
  intros Hnd Hi. pose proof (lookup_lt_Some _ _ _ Hi) as Hlt.
  induction k as [|k IH].
  - rewrite Nat.add_0_r, Nat.mod_small by done. done.
  - simpl. rewrite <- (after_next_lookup tracks _ _ Hnd IH).
    f_equal. rewrite Nat.Div0.add_mod_idemp_l. f_equal. lia.
Qed.



(** X19. When the current track is not in the list (its id occurs nowhere, as
    after the list was replaced), [handleNext] starts over at the first track;
    without a current track, or with an empty list, it does nothing. *)
Theorem handleNext_stale (tracks : list YouTubeTrack) (current : YouTubeTrack) :
  handleNext tracks None = None
  /\ handleNext [] (Some current) = None
  /\ (id current ∉ id <$> tracks ->
      handleNext tracks (Some current) = head tracks).
Proof.
  split; [done|]. split; [done|].
  intros Hn. unfold handleNext, nextIndex, findIndex_id.
  destruct tracks as [|t tracks]; [done|].
  rewrite bool_decide_eq_false_2 by done.
  destruct (list_find _ _) as [[j y]|] eqn:Hfind; simpl.
  - exfalso. apply list_find_Some in Hfind as (Hj & Hid & _).
    apply Hn. rewrite <- Hid. apply list_elem_of_fmap. exists y.
    split; [done | by eapply list_elem_of_lookup_2].
  - by rewrite Nat.sub_diag.
Qed.

Lemma progress_after_succ (k : nat) :
  progress_after (S k) = (progress_tick (progress_after k)).1.
Proof. reflexivity. Qed.

Lemma progress_after_climb (k : nat) :
  (k <= 200)%nat ->
  progress_after k = (Qc_of_Z (Z.of_nat k) * Q2Qc (1 # 2))%Qc.
Proof.
  induction k as [|k IH]; intros Hk.
  - change (Z.of_nat 0) with 0. rewrite Z2Qc_inj_0. by rewrite Qcmult_0_l.
  - rewrite progress_after_succ, IH by lia. unfold progress_tick.
    assert (Hlt : (Qc_of_Z (Z.of_nat k) < Qc_of_Z 200)%Qc)
      by (apply (proj1 (Z2Qc_inj_lt _ _)); lia).
    rewrite Qc_of_nat_succ.
    set (n := Qc_of_Z (Z.of_nat k)) in *.
    rewrite decide_False by (intros Hge; Qc_lra).
    simpl. Qc_lra.
Qed.

(** X20. From [setProgress(0)] the progress climbs by 0.5 per tick and
    reaches 100 after 200 ticks without calling [handleNext]; the tick after
    that calls [handleNext] and puts the progress back to 0. *)
Theorem progress_cycle :
  (forall k, (k <= 200)%nat ->
     progress_after k = (Qc_of_Z (Z.of_nat k) * Q2Qc (1 # 2))%Qc
     /\ ((k < 200)%nat -> (progress_tick (progress_after k)).2 = false))
  /\ progress_after 200 = Qc_of_Z 100
  /\ progress_tick (progress_after 200) = (0%Qc, true)
  /\ progress_after 201 = 0%Qc.
Proof.
  assert (H200 : progress_after 200 = Qc_of_Z 100).
  { rewrite progress_after_climb by lia. by apply Qc_is_canon. }
  split; [|split; [exact H200|]].
  - intros k Hk. split; [by apply progress_after_climb|].
    intros Hlt. rewrite progress_after_climb by lia. unfold progress_tick.
    assert (Hq : (Qc_of_Z (Z.of_nat k) < Qc_of_Z 200)%Qc)
      by (apply (proj1 (Z2Qc_inj_lt _ _)); lia).
    set (n := Qc_of_Z (Z.of_nat k)) in *.
    by rewrite decide_False by (intros Hge; Qc_lra).
  - split; [by rewrite H200|].
    by rewrite (progress_after_succ 200), H200.
Qed.

(** ** The chat window *)

Lemma Object_prototype_truthy (key : string) (v : value) :
  Object_prototype !! key = Some v -> truthy v = true.
Proof.
  intros Hv. apply elem_of_list_to_map_2 in Hv.
  rewrite !elem_of_cons, elem_of_nil in Hv.
  repeat (destruct Hv as [[= -> ->] | Hv]; [reflexivity|]). done.
Qed.

(** X21. The tone of [ChatInterface] is the tone of [sendMessageToLLM] exactly
    when the emotion is absent, empty, one of the seven labels, or the name of
    an inherited property; for every other string the chat window has no tone
    at all ([undefined]) where the service falls back to its default. *)
Theorem chat_tone_agrees (currentEmotion : option string) :
  (chat_tone currentEmotion = tone currentEmotion <->
     forall e, currentEmotion = Some e ->
       e = ""%string \/ e ∈ EMOTIONS \/ inherited e)
  /\ (forall e, currentEmotion = Some e ->
        e <> ""%string -> e ∉ EMOTIONS -> ~ inherited e ->
        chat_tone currentEmotion = Undefined
        /\ tone currentEmotion = Str "neutral and helpful").
Proof.
  destruct currentEmotion as [[|c e]|].
  - split; [|by intros ? [= <-]]. split; [|done]. intros _ ? [= <-]. by left.
  - set (s := String c e).
    assert (Hunmapped : s ∉ EMOTIONS ->
      chat_tone (Some s) = default Undefined (Object_prototype !! s)
      /\ tone (Some s) = or_else (default Undefined (Object_prototype !! s))
                                 (Str "neutral and helpful")).
    { intros Hn. unfold chat_tone, tone, chat_emotionToTone, emotionToTone.
      cbn [s]. by rewrite !own_lookup_unmapped by exact Hn. }
    split.
    + destruct (decide (s ∈ EMOTIONS)) as [Hin|Hn].
      * split; [intros _ ? [= <-]; by right; left|]. intros _.
        each_label Hin; reflexivity.
      * destruct (Hunmapped Hn) as [-> ->]. unfold inherited.
        destruct (Object_prototype !! s) as [v|] eqn:Hv; simpl.
        -- unfold or_else. rewrite (Object_prototype_truthy _ _ Hv).
           split; [|done]. intros _ ? [= <-]. right; right. by rewrite Hv.
        -- split; [done|]. intros H. exfalso.
           destruct (H s eq_refl) as [?|[?|[? ?]]]; [done | done |].
           by rewrite Hv in *.
    + intros ? [= <-] _ Hn Hi. destruct (Hunmapped Hn) as [-> ->].
      unfold inherited in Hi. apply eq_None_not_Some in Hi. by rewrite Hi.
  - split; [|done]. split; [done|]. done.
Qed.

Lemma chat_tone_agrees_witness :
  chat_tone (Some "bored"%string) = Undefined
  /\ tone (Some "bored"%string) = Str "neutral and helpful".
Proof.
  apply (proj2 (chat_tone_agrees (Some "bored"%string)) "bored"); try done.
  - compute_done.
  - unfold inherited. by intros [? ?].
Defined.

Lemma randomIndex_bound (r : Qc) (len : nat) :
  unit_draw r -> (0 < len)%nat -> (randomIndex r len < len)%nat.
Proof.
  intros [H0 H1] Hlen. unfold randomIndex.
  set (n := Qc_of_Z (Z.of_nat len)).
  assert (Hn : (0 < n)%Qc).
  { apply Qc_of_Z_pos. lia. }
  assert (Hlo : (0 <= r * n)%Qc).
  { rewrite <- (Qcmult_0_l n). apply Qcmult_le_mono_nonneg_r; [|done].
    by apply Qclt_le_weak. }
  assert (Hhi : (r * n < n)%Qc).
  { rewrite <- (Qcmult_1_l n) at 2. by apply Qcmult_lt_mono_pos_r. }
  set (x := (r * n)%Qc) in *.
  assert (Hf0 : (0 <= Qfloor x)%Z).
  { change 0%Z with (Qfloor 0). by apply Qfloor_resp_le. }
  assert (Hf1 : (Qfloor x < Z.of_nat len)%Z).
  { rewrite Zlt_Qlt. eapply Qle_lt_trans; [apply Qfloor_le|]. exact Hhi. }
  lia.
Qed.

Lemma canned_lookup (r : Qc) (responses : list string) :
  unit_draw r -> length responses = 3%nat ->
  exists s, responses !! randomIndex r (length responses) = Some s /\ s ∈ responses.
Proof.
  intros Hr Hlen.
  destruct (lookup_lt_is_Some_2 responses (randomIndex r (length responses)))
    as [s Hs]; [apply randomIndex_bound; [done | lia]|].
  exists s. split; [done | by eapply list_elem_of_lookup_2].
Qed.

(** X22. For a draw in [0, 1) the index of [getMockResponse] is always inside
    the list: the answer is one of the three canned replies of the emotion
    when it is one of the seven labels, and one of the neutral replies when
    the emotion is absent, empty or unknown.  Only for the name of an
    inherited property is the answer [undefined]. *)
Theorem getMockResponse_canned (r : Qc) (emotion : option string) :
  unit_draw r ->
  let key := string_or emotion "neutral" in
  (inherited key -> getMockResponse r emotion = None)
  /\ (~ inherited key ->
      exists responses s,
        mockResponses_at (if decide (key ∈ EMOTIONS) then key else "neutral"%string)
        = Some responses
        /\ getMockResponse r emotion = Some s
        /\ s ∈ responses).
Proof.
  intros Hr key. unfold getMockResponse. fold key. clearbody key.
  destruct (decide (key ∈ EMOTIONS)) as [Hin|Hn].
  - split.
    + intros [v Hv]. exfalso. each_label Hin; discriminate Hv.
    + intros _. each_label Hin;
        (eexists; edestruct (canned_lookup r) as (s & Hs & Hin');
         [exact Hr | | exists s; split; [reflexivity|]; split; [exact Hs | exact Hin']];
         reflexivity).
  - assert (Hown : mockResponses_at key = None).
    { unfold mockResponses_at. by apply not_elem_of_list_to_map_1. }
    rewrite Hown. split.
    + by intros [v ->].
    + intros Hi. unfold inherited in Hi. apply eq_None_not_Some in Hi. rewrite Hi.
      eexists. edestruct (canned_lookup r) as (s & Hs & Hin');
        [exact Hr | | exists s; split; [reflexivity|]; split; [exact Hs | exact Hin']].
      reflexivity.
Qed.

Lemma getMockResponse_canned_witness :
  unit_draw (Q2Qc (1 # 2))
  /\ getMockResponse (Q2Qc (1 # 2)) (Some "constructor"%string) = None.
Proof.
  assert (Hr : unit_draw (Q2Qc (1 # 2))) by (split; by vm_compute).
  split; [exact Hr|].
  apply (getMockResponse_canned (Q2Qc (1 # 2)) (Some "constructor"%string) Hr).
  by eexists.
Defined.

(** ** The training of the hook *)

(** X23. After [initClassifier] the hook is no longer training.  When the
    training returned, the hook is ready with the trained network and has no
    error; when it threw, the hook stays not ready, keeps a non-empty error
    message, and [classify] answers ["neutral"] for every window. *)
Theorem initClassifier_outcome (training : outcome NeuralNetwork) :
  let h := initClassifier training initial_hook in
  hook_isTraining h = false
  /\ (forall net, training = Returned net ->
        hook_isReady h = true /\ hook_classifier h = Some net
        /\ hook_trainError h = None)
  /\ (throws training ->
        hook_isReady h = false
        /\ (exists message, hook_trainError h = Some message /\ message <> ""%string)
        /\ forall eegData, classify (hook_view h) eegData = Returned "neutral"%string).
Proof.
  split; [done|]. split.
  - by intros net ->.
  - intros [e ->]. split; [done|]. split; [|done].
    eexists. split; [reflexivity|]. by apply string_or_nonempty.
Qed.

Lemma initClassifier_outcome_witness :
  classify (hook_view (initClassifier (Thrown (Error "out of memory")) initial_hook))
    two_samples = Returned "neutral"%string.
Proof.
  apply (initClassifier_outcome (Thrown (Error "out of memory"))).
  by eexists.
Defined.

Lemma point_x_single_sample_witness : point_x 0 3 = Fin 0%Qc.
Proof.
  apply (proj2 point_x_single_sample 3%nat 0%nat). lia.
Defined.

Lemma progress_cycle_witness :
  progress_after 7 = (Qc_of_Z (Z.of_nat 7) * Q2Qc (1 # 2))%Qc.
Proof.
  apply (proj1 progress_cycle 7%nat). lia.
Defined.

Lemma handleNext_stale_witness :
  handleNext happy_tracks (Some (track "5qap5aO4i9A" "Zen Garden"))
  = Some (track "dQw4w9WgXcQ" "Happy Vibes").
Proof.
  apply (handleNext_stale happy_tracks (track "5qap5aO4i9A" "Zen Garden")).
  compute_done.
Defined.
